(** * Congo real-estate backend: schema, storage layer and request handlers

    A shallow embedding of [shared/schema.ts] (tables and insert schemas),
    [server/storage.ts] (the [DatabaseStorage] class) and [server/routes.ts]
    (the Express handlers), followed by the properties of the moderation and
    payment workflow.

    Conventions of the embedding:
    - a table is the list of its rows; a drizzle [select ... where p] is a
      [filter], an [update ... set f where p] maps [f] over the rows that
      satisfy [p], and [returning()] yields the rows written;
    - [gen_random_uuid()] and [now()] are served by the database, so every
      inserting operation takes the generated id and the timestamp as
      arguments;
    - a JavaScript number is an integer or [NaN]: every number of this
      program comes from [parseInt] or from an integer literal (the loss of
      precision of doubles above 2^53 is not modelled);
    - a string is the sequence of the bytes of its UTF-8 encoding, which is
      how it goes to the database;
    - asynchronous calls are sequential: each handler awaits every call. *)

From Stdlib Require Import Ascii String.
From stdpp Require Import base decidable option list numbers strings gmap sorting pretty.

Local Open Scope string_scope.
Local Open Scope Z_scope.
Local Open Scope list_scope.

(** ** JavaScript values *)

Inductive jsnum :=
| NaN
| Num (z : Z).

#[warnings="-register-all"]
Inductive jsval :=
| VUndefined
| VNull
| VBool (b : bool)
| VNumber (n : jsnum)
| VString (s : string)
| VArray (l : list jsval).

(** A plain object: [req.body], and the object handed to [schema.parse]. *)
Abbreviation jsobject := (gmap string jsval).

(** [o.k]: a key that is not there reads as [undefined]. *)
Definition get (o : jsobject) (k : string) : jsval :=
  default VUndefined (o !! k).

(** JavaScript truthiness, as used by [x ? a : b], [!x] and [x && y]. *)
Definition truthy (v : jsval) : bool :=
  match v with
  | VUndefined | VNull => false
  | VBool b => b
  | VNumber NaN => false
  | VNumber (Num z) => negb (z =? 0)
  | VString s => negb (String.eqb s EmptyString)
  | VArray _ => true
  end.

(** ** [parseInt] with no radix argument *)

Module ParseInt.

(** The white space and line terminators of one byte: TAB, LF, VT, FF, CR
    and the space. *)
Definition is_white (c : ascii) : bool :=
  let n := nat_of_ascii c in
  ((9 <=? n) && (n <=? 13))%nat || (n =? 32)%nat.

(** The others, by the bytes of their encoding: U+00A0 on two bytes; on
    three bytes U+1680, U+2000 to U+200A, U+2028, U+2029, U+202F, U+205F,
    U+3000 and U+FEFF. *)
Definition is_white2 (c1 c2 : ascii) : bool :=
  ((nat_of_ascii c1 =? 194) && (nat_of_ascii c2 =? 160))%nat.

Definition is_white3 (c1 c2 c3 : ascii) : bool :=
  let n1 := nat_of_ascii c1 in
  let n2 := nat_of_ascii c2 in
  let n3 := nat_of_ascii c3 in
  ((n1 =? 225) && (n2 =? 154) && (n3 =? 128)
   || (n1 =? 226) && (n2 =? 128)
      && ((128 <=? n3) && (n3 <=? 138) || (n3 =? 168) || (n3 =? 169) || (n3 =? 175))
   || (n1 =? 226) && (n2 =? 129) && (n3 =? 159)
   || (n1 =? 227) && (n2 =? 128) && (n3 =? 128)
   || (n1 =? 239) && (n2 =? 187) && (n3 =? 191))%nat.

Fixpoint trim_start (s : string) : string :=
  match s with
  | String c1 r1 =>
      if is_white c1 then trim_start r1
      else match r1 with
           | String c2 r2 =>
               if is_white2 c1 c2 then trim_start r2
               else match r2 with
                    | String c3 r3 => if is_white3 c1 c2 c3 then trim_start r3 else s
                    | EmptyString => s
                    end
           | EmptyString => s
           end
  | EmptyString => s
  end.

(** The value of [c] as a digit in base [radix], if it is one. *)
Definition digit (radix : Z) (c : ascii) : option Z :=
  let n := Z.of_nat (nat_of_ascii c) in
  let d :=
    if (48 <=? n) && (n <=? 57) then Some (n - 48)
    else if (97 <=? n) && (n <=? 122) then Some (n - 87)
    else if (65 <=? n) && (n <=? 90) then Some (n - 55)
    else None in
  match d with
  | Some v => if v <? radix then Some v else None
  | None => None
  end.

(** Reads the longest prefix of digits; [acc] is [None] until a digit
    has been read. *)
Fixpoint digits (radix : Z) (acc : option Z) (s : string) : option Z :=
  match s with
  | String c r =>
      match digit radix c with
      | Some d => digits radix (Some (default 0 acc * radix + d)) r
      | None => acc
      end
  | EmptyString => acc
  end.

Definition strip_sign (s : string) : Z * string :=
  match s with
  | String "-"%char r => (-1, r)
  | String "+"%char r => (1, r)
  | _ => (1, s)
  end.

Definition strip_prefix (s : string) : Z * string :=
  match s with
  | String "0"%char (String "x"%char r)
  | String "0"%char (String "X"%char r) => (16, r)
  | _ => (10, s)
  end.

Definition of_string (s : string) : jsnum :=
  let '(sign, s1) := strip_sign (trim_start s) in
  let '(radix, s2) := strip_prefix s1 in
  match digits radix None s2 with
  | Some n => Num (sign * n)
  | None => NaN
  end.

End ParseInt.

(** The argument is a text field of the form: a string, or [undefined]
    (which [parseInt] first turns into the string "undefined"). *)
Definition parseInt (v : option string) : jsnum :=
  ParseInt.of_string (default "undefined" v).

(** ** The tables of [shared/schema.ts]

    A row carries every column of its table; a nullable column is an
    [option]. Timestamps are integers (milliseconds). *)

Module Listing.
Record t := mk {
  id : string;
  city : string;
  commune : string;
  neighborhood : string;
  rooms : Z;
  propertyType : string;
  transactionType : string;
  price : Z;
  deposit : option Z;
  description : string;
  phone : string;
  images : list string;
  status : string;
  paymentStatus : string;
  featured : bool;
  createdAt : Z }.

(** [.set({ status })] *)
Definition set_status (s : string) (l : t) : t :=
  mk (id l) (city l) (commune l) (neighborhood l) (rooms l) (propertyType l)
     (transactionType l) (price l) (deposit l) (description l) (phone l)
     (images l) s (paymentStatus l) (featured l) (createdAt l).

(** [.set({ paymentStatus })] *)
Definition set_paymentStatus (s : string) (l : t) : t :=
  mk (id l) (city l) (commune l) (neighborhood l) (rooms l) (propertyType l)
     (transactionType l) (price l) (deposit l) (description l) (phone l)
     (images l) (status l) s (featured l) (createdAt l).
End Listing.

Module Payment.
Record t := mk {
  id : string;
  listingId : option string;
  type : string;
  amount : Z;
  status : string;
  createdAt : Z }.

Definition set_status (s : string) (p : t) : t :=
  mk (id p) (listingId p) (type p) (amount p) s (createdAt p).
End Payment.

Module PhoneUnlock.
Record t := mk {
  id : string;
  listingId : string;
  paymentStatus : string;
  createdAt : Z }.

Definition set_paymentStatus (s : string) (u : t) : t :=
  mk (id u) (listingId u) s (createdAt u).
End PhoneUnlock.

(** ** The insert schemas (zod, through drizzle-zod)

    [createInsertSchema] turns a [text]/[varchar] column into [z.string()]
    and an [integer] column into a number within the 32-bit range (earlier
    releases of drizzle-zod set no range; the only such column left in the
    schema below is [deposit], and no property depends on its range); a
    nullable column or one with a default becomes optional. The schema
    is an ordinary [z.object]: a key outside its shape is stripped from
    the result, it raises no issue. Messages are left out of the issues. *)

Module Zod.

Inductive code := invalid_type | too_small | too_big.
Inductive segment := Key (k : string) | Index (i : nat).
Record issue := Issue { path : list segment; issue_code : code }.

(** What [safeParse] yields: the issues, or the parsed value when no
    check raised one. [parse] throws a [ZodError] with the issues. *)
Definition result (A : Type) : Type := list issue + A.

Definition issues {A} (r : result A) : list issue :=
  match r with inl e => e | inr _ => [] end.

(** All the keys of an object are checked; their issues accumulate. *)
Definition ap {A B} (f : result (A → B)) (a : result A) : result B :=
  match f, a with
  | inr g, inr x => inr (g x)
  | _, _ => inl (issues f ++ issues a)
  end.

(** [z.string()] *)
Definition string (p : list segment) (v : jsval) : result String.string :=
  match v with
  | VString s => inr s
  | _ => inl [Issue p invalid_type]
  end.

(** [z.number().min(m, msg)] *)
Definition number_min (m : Z) (p : list segment) (v : jsval) : result Z :=
  match v with
  | VNumber (Num z) => if z <? m then inl [Issue p too_small] else inr z
  | _ => inl [Issue p invalid_type]
  end.

Definition INT32_MIN : Z := -2147483648.
Definition INT32_MAX : Z := 2147483647.

(** A nullable [integer] column: optional, nullable, 32-bit. *)
Definition integer_nullable (p : list segment) (v : jsval) : result (option Z) :=
  match v with
  | VUndefined | VNull => inr None
  | VNumber (Num z) =>
      if z <? INT32_MIN then inl [Issue p too_small]
      else if INT32_MAX <? z then inl [Issue p too_big]
      else inr (Some z)
  | _ => inl [Issue p invalid_type]
  end.

(** The elements of a [z.array(z.string())], from index [i] on. *)
Fixpoint strings_from (p : list segment) (i : nat) (l : list jsval)
  : result (list String.string) :=
  match l with
  | [] => inr []
  | v :: r => ap (ap (inr cons) (string (p ++ [Index i]) v)) (strings_from p (S i) r)
  end.

(** [z.array(z.string()).min(m, msg)]: the length check comes first and
    does not stop the checks of the elements. *)
Definition array_string_min (m : nat) (p : list segment) (v : jsval)
  : result (list String.string) :=
  match v with
  | VArray l =>
      let len : result unit :=
        if (length l <? m)%nat then inl [Issue p too_small] else inr () in
      ap (ap (inr (λ _ x, x)) len) (strings_from p 0 l)
  | _ => inl [Issue p invalid_type]
  end.

End Zod.

Notation "f <*> a" := (Zod.ap f a) (at level 61, left associativity).
Arguments Zod.ap : simpl never.

Module InsertListing.
Record t := mk {
  city : string;
  commune : string;
  neighborhood : string;
  rooms : Z;
  propertyType : string;
  transactionType : string;
  price : Z;
  deposit : option Z;
  description : string;
  phone : string;
  images : list string }.

(** The values of the text columns and of the array of texts. *)
Definition texts (v : t) : list string :=
  [city v; commune v; neighborhood v; propertyType v; transactionType v;
   description v; phone v] ++ images v.
End InsertListing.

Module InsertPayment.
Record t := mk {
  listingId : option string;
  type : string;
  amount : Z }.
End InsertPayment.

Module InsertPhoneUnlock.
Record t := mk { listingId : string }.
End InsertPhoneUnlock.

(** [createInsertSchema(listings).omit({ id, status, paymentStatus, featured,
    createdAt }).extend({ images, rooms, price })]: the shape keeps the
    columns in the order of the table. *)
Definition insertListingSchema (o : jsobject) : Zod.result InsertListing.t :=
  let field {A} (check : list Zod.segment → jsval → Zod.result A) k :=
    check [Zod.Key k] (get o k) in
  inr InsertListing.mk
    <*> field Zod.string "city"
    <*> field Zod.string "commune"
    <*> field Zod.string "neighborhood"
    <*> field (Zod.number_min 1) "rooms"
    <*> field Zod.string "propertyType"
    <*> field Zod.string "transactionType"
    <*> field (Zod.number_min 1) "price"
    <*> field Zod.integer_nullable "deposit"
    <*> field Zod.string "description"
    <*> field Zod.string "phone"
    <*> field (Zod.array_string_min 1) "images".

(** [createInsertSchema(phoneUnlocks).omit({ id, paymentStatus, createdAt })] *)
Definition insertPhoneUnlockSchema (o : jsobject) : Zod.result InsertPhoneUnlock.t :=
  inr InsertPhoneUnlock.mk <*> Zod.string [Zod.Key "listingId"] (get o "listingId").

(** ** The database

    The three tables, and the constraints the schema declares on them:
    primary keys, the two foreign keys to [listings.id], and the 32-bit
    range of an [integer] column. Rows are never deleted. *)

Record Store := mkStore {
  listings : list Listing.t;
  payments : list Payment.t;
  phoneUnlocks : list PhoneUnlock.t }.

Definition with_listings (rows : list Listing.t) (db : Store) : Store :=
  mkStore rows (payments db) (phoneUnlocks db).
Definition with_payments (rows : list Payment.t) (db : Store) : Store :=
  mkStore (listings db) rows (phoneUnlocks db).
Definition with_phoneUnlocks (rows : list PhoneUnlock.t) (db : Store) : Store :=
  mkStore (listings db) (payments db) rows.

Inductive exn :=
| ZodError (issues : list Zod.issue)
| DatabaseError (constraint : string).

(** An awaited call either returns or throws; the writes made before a
    throw stay in the database (no handler opens a transaction). *)
Inductive outcome (A : Type) :=
| Returned (a : A) (db : Store)
| Threw (e : exn) (db : Store).
Arguments Returned {A} a db.
Arguments Threw {A} e db.

Definition M (A : Type) : Type := Store → outcome A.

#[export] Instance M_ret : MRet M := λ A a db, Returned a db.
#[export] Instance M_bind : MBind M := λ A B k m db,
  match m db with
  | Returned a db' => k a db'
  | Threw e db' => Threw e db'
  end.

Definition throw {A} (e : exn) : M A := λ db, Threw e db.

(** [schema.parse(o)] *)
Definition parse {A} (schema : jsobject → Zod.result A) (o : jsobject) : M A :=
  match schema o with
  | inr v => mret v
  | inl e => throw (ZodError e)
  end.

Module Sql.

(** PostgreSQL holds no text with the character U+0000: a statement that
    carries one, as the value of a column or in a [where], is refused. *)
Fixpoint text_ok (s : string) : bool :=
  match s with
  | String c r => negb (Ascii.eqb c "000"%char) && text_ok r
  | EmptyString => true
  end.

Definition text (s : string) : Prop := text_ok s = true.

#[export] Instance text_dec (s : string) : Decision (text s).
Proof. unfold text. apply _. Defined.

Definition texts_ok (values : list string) : bool := forallb text_ok values.

Definition invalid_byte : exn :=
  DatabaseError "invalid byte sequence for encoding UTF8: 0x00".

Definition int4 (z : Z) : bool := (Zod.INT32_MIN <=? z) && (z <=? Zod.INT32_MAX).

Definition int4_null (z : option Z) : bool := from_option int4 true z.

(** [.references(() => t.id)]: the key is one of the ids of [t]; a null
    key references nothing. *)
Definition references (ids : list string) (k : string) : bool :=
  bool_decide (k ∈ ids).

Definition references_null (ids : list string) (k : option string) : bool :=
  from_option (references ids) true k.

(** [.where(p)] *)
Definition where_ {A} (P : A → Prop) `{∀ r, Decision (P r)} (rows : list A) : list A :=
  filter P rows.

(** [desc(key)]: [a] may come before [b]. *)
Definition desc {A} (key : A → Z) : relation A := λ a b, key b ≤ key a.

#[export] Instance desc_dec {A} (key : A → Z) : RelDecision (desc key).
Proof. intros a b. unfold desc. apply _. Defined.

(** [.orderBy(desc(key))]. PostgreSQL leaves the order of rows with equal
    keys open; this sort fixes one. *)
Definition orderBy_desc {A} (key : A → Z) (rows : list A) : list A :=
  merge_sort (desc key) rows.

(** [update(t).set(f).where(p).returning()]: the table afterwards, and
    the rows written. *)
Definition update {A} (f : A → A) (P : A → Prop) `{∀ r, Decision (P r)}
    (rows : list A) : list A * list A :=
  ((λ r, if decide (P r) then f r else r) <$> rows, f <$> filter P rows).

End Sql.

(** ** [server/storage.ts]: class [DatabaseStorage] *)

(** [insert(listings).values(v)]: the row written, the columns that [v]
    does not give taking their defaults. *)
Definition listings_values (newId : string) (now : Z) (v : InsertListing.t)
  : Listing.t :=
  Listing.mk newId (InsertListing.city v) (InsertListing.commune v)
    (InsertListing.neighborhood v) (InsertListing.rooms v)
    (InsertListing.propertyType v) (InsertListing.transactionType v)
    (InsertListing.price v) (InsertListing.deposit v)
    (InsertListing.description v) (InsertListing.phone v)
    (InsertListing.images v) "pending" "pending" false now.

Definition payments_values (newId : string) (now : Z) (v : InsertPayment.t)
  : Payment.t :=
  Payment.mk newId (InsertPayment.listingId v) (InsertPayment.type v)
    (InsertPayment.amount v) "pending" now.

Definition phoneUnlocks_values (newId : string) (now : Z) (v : InsertPhoneUnlock.t)
  : PhoneUnlock.t :=
  PhoneUnlock.mk newId (InsertPhoneUnlock.listingId v) "pending" now.

(** An insert is refused when a text of the row holds U+0000, when an
    integer is out of range, when the id is taken, or when a listing id
    refers to no listing; it then writes nothing. The [listingId] of a
    payment or of a phone unlock is left to the foreign key: with U+0000
    it is the id of no listing (see [integrity] below). *)
Definition createListing (newId : string) (now : Z) (insertListing : InsertListing.t)
  : M Listing.t := λ db,
  let listing := listings_values newId now insertListing in
  if negb (Sql.text_ok newId && Sql.texts_ok (InsertListing.texts insertListing))
  then Threw Sql.invalid_byte db
  else if negb (Sql.int4 (Listing.rooms listing) && Sql.int4 (Listing.price listing)
                && Sql.int4_null (Listing.deposit listing))
  then Threw (DatabaseError "integer out of range") db
  else if decide (newId ∈ Listing.id <$> listings db)
  then Threw (DatabaseError "listings_pkey") db
  else Returned listing (with_listings (listings db ++ [listing]) db).

Definition getListing (id : string) : M (option Listing.t) := λ db,
  if Sql.text_ok id
  then Returned (head (Sql.where_ (λ l, Listing.id l = id) (listings db))) db
  else Threw Sql.invalid_byte db.

Definition getAllListings : M (list Listing.t) := λ db,
  Returned (Sql.orderBy_desc Listing.createdAt (listings db)) db.

Definition getApprovedListings : M (list Listing.t) := λ db,
  Returned
    (Sql.orderBy_desc Listing.createdAt
       (Sql.where_ (λ l, Listing.status l = "approved"
                         ∧ Listing.paymentStatus l = "confirmed") (listings db)))
    db.

Definition getPendingListings : M (list Listing.t) := λ db,
  Returned
    (Sql.orderBy_desc Listing.createdAt
       (Sql.where_ (λ l, Listing.status l = "pending") (listings db)))
    db.

Definition updateListingStatus (id status : string) : M (option Listing.t) := λ db,
  if Sql.text_ok id && Sql.text_ok status
  then let '(rows, returning) :=
         Sql.update (Listing.set_status status) (λ l, Listing.id l = id) (listings db) in
       Returned (head returning) (with_listings rows db)
  else Threw Sql.invalid_byte db.

Definition updateListingPaymentStatus (id paymentStatus : string)
  : M (option Listing.t) := λ db,
  if Sql.text_ok id && Sql.text_ok paymentStatus
  then let '(rows, returning) :=
         Sql.update (Listing.set_paymentStatus paymentStatus) (λ l, Listing.id l = id)
           (listings db) in
       Returned (head returning) (with_listings rows db)
  else Threw Sql.invalid_byte db.

Definition approveAllPendingListings : M nat := λ db,
  let '(rows, result) :=
    Sql.update (Listing.set_status "approved")
      (λ l, Listing.status l = "pending" ∧ Listing.paymentStatus l = "confirmed")
      (listings db) in
  Returned (length result) (with_listings rows db).

Definition createPayment (newId : string) (now : Z) (insertPayment : InsertPayment.t)
  : M Payment.t := λ db,
  let payment := payments_values newId now insertPayment in
  if negb (Sql.text_ok newId && Sql.text_ok (Payment.type payment))
  then Threw Sql.invalid_byte db
  else if negb (Sql.int4 (Payment.amount payment))
  then Threw (DatabaseError "integer out of range") db
  else if decide (newId ∈ Payment.id <$> payments db)
  then Threw (DatabaseError "payments_pkey") db
  else if Sql.references_null (Listing.id <$> listings db) (Payment.listingId payment)
  then Returned payment (with_payments (payments db ++ [payment]) db)
  else Threw (DatabaseError "payments_listing_id_listings_id_fk") db.

Definition getPayment (id : string) : M (option Payment.t) := λ db,
  if Sql.text_ok id
  then Returned (head (Sql.where_ (λ p, Payment.id p = id) (payments db))) db
  else Threw Sql.invalid_byte db.

Definition updatePaymentStatus (id status : string) : M (option Payment.t) := λ db,
  if Sql.text_ok id && Sql.text_ok status
  then let '(rows, returning) :=
         Sql.update (Payment.set_status status) (λ p, Payment.id p = id) (payments db) in
       Returned (head returning) (with_payments rows db)
  else Threw Sql.invalid_byte db.

Definition createPhoneUnlock (newId : string) (now : Z)
    (insertUnlock : InsertPhoneUnlock.t) : M PhoneUnlock.t := λ db,
  let unlock := phoneUnlocks_values newId now insertUnlock in
  if negb (Sql.text_ok newId)
  then Threw Sql.invalid_byte db
  else if decide (newId ∈ PhoneUnlock.id <$> phoneUnlocks db)
  then Threw (DatabaseError "phone_unlocks_pkey") db
  else if Sql.references (Listing.id <$> listings db) (PhoneUnlock.listingId unlock)
  then Returned unlock (with_phoneUnlocks (phoneUnlocks db ++ [unlock]) db)
  else Threw (DatabaseError "phone_unlocks_listing_id_listings_id_fk") db.

Definition getPhoneUnlock (id : string) : M (option PhoneUnlock.t) := λ db,
  if Sql.text_ok id
  then Returned (head (Sql.where_ (λ u, PhoneUnlock.id u = id) (phoneUnlocks db))) db
  else Threw Sql.invalid_byte db.

Definition updatePhoneUnlockStatus (id paymentStatus : string)
  : M (option PhoneUnlock.t) := λ db,
  if Sql.text_ok id && Sql.text_ok paymentStatus
  then let '(rows, returning) :=
         Sql.update (PhoneUnlock.set_paymentStatus paymentStatus)
           (λ u, PhoneUnlock.id u = id) (phoneUnlocks db) in
       Returned (head returning) (with_phoneUnlocks rows db)
  else Threw Sql.invalid_byte db.

(** ** [server/routes.ts] *)

Module Multer.

(** An uploaded part; [filename] is the name the disk storage gave it
    (field name, a time and random suffix, the original extension). *)
Record File := mkFile {
  fieldname : string;
  originalname : string;
  mimetype : string;
  size : Z;
  filename : string }.

Definition allowedTypes : list string := ["image/jpeg"; "image/png"; "image/jpg"].

Definition fileFilter (file : File) : bool :=
  bool_decide (mimetype file ∈ allowedTypes).

Definition fileSize : Z := 10 * 1024 * 1024.

(** [upload.array(name, maxCount)]: [req.files], or [None] when multer
    ends the request with an error instead of calling the handler. A
    request that is not multipart has no parts and no [req.files]. A file
    that reaches [fileSize] bytes is cut there and ends the request: the
    files let through are shorter. *)
Definition array (name : string) (maxCount : nat) (parts : option (list File))
  : option (option (list File)) :=
  match parts with
  | None => Some None
  | Some fs =>
      if forallb (λ f, bool_decide (fieldname f = name) && fileFilter f
                       && (size f <? fileSize)) fs
         && (length fs <=? maxCount)%nat
      then Some (Some fs) else None
  end.

End Multer.

Inductive json :=
| JError (error : string)
| JZodError (issues : list Zod.issue)
| JListing (listing : Listing.t)
| JListings (rows : list Listing.t)
| JListingPayment (listing : Listing.t) (payment : Payment.t)
| JUnlockPayment (unlock : PhoneUnlock.t) (payment : Payment.t)
| JPayment (payment : Payment.t)
| JCount (count : nat) (message : string).

(** What the handler sends: [res.status(n).json(b)]; or the error multer
    hands to Express before the handler runs. *)
Inductive response :=
| Sent (status : nat) (body : json)
| Next (err : string).

(** [res.json(b)] *)
Definition ok (b : json) : M response := mret (Sent 200 b).

(** [try { body } catch (error) { handler }] around a whole handler. *)
Definition try_catch (body : M response) (handler : exn → response)
  : Store → response * Store := λ db,
  match body db with
  | Returned r db' => (r, db')
  | Threw e db' => (handler e, db')
  end.

(** The catch block of the two creating handlers. *)
Definition catch_zod (message : string) (error : exn) : response :=
  match error with
  | ZodError issues => Sent 400 (JZodError issues)
  | _ => Sent 500 (JError message)
  end.

(** The ids and timestamps the database generates during one request.
    What [gen_random_uuid()] gives is a text of the database. *)
Record Fresh := mkFresh {
  uuid1 : string; now1 : Z;
  uuid2 : string; now2 : Z;
  uuid1_text : Sql.text uuid1;
  uuid2_text : Sql.text uuid2 }.

(** [{ ...req.body, rooms, price, deposit, images }]. The body of the
    multipart form maps each field name to the string sent for it (a
    form that sends each of its fields once). *)
Definition listingData (body : gmap string string) (imagePaths : list string)
  : jsobject :=
  <["images" := VArray (VString <$> imagePaths)]>
  (<["deposit" := if truthy (from_option VString VUndefined (body !! "deposit"))
                  then VNumber (parseInt (body !! "deposit")) else VUndefined]>
  (<["price" := VNumber (parseInt (body !! "price"))]>
  (<["rooms" := VNumber (parseInt (body !! "rooms"))]>
  (VString <$> body)))).

Definition post_listings (g : Fresh) (files : option (list Multer.File))
    (body : gmap string string) : Store → response * Store :=
  try_catch
    (match files with
     | None | Some [] => mret (Sent 400 (JError "Au moins une image est requise"))
     | Some files =>
         let imagePaths := (λ file, "/uploads/" +:+ Multer.filename file) <$> files in
         validatedData ← parse insertListingSchema (listingData body imagePaths);
         listing ← createListing (uuid1 g) (now1 g) validatedData;
         payment ← createPayment (uuid2 g) (now2 g)
                     (InsertPayment.mk (Some (Listing.id listing)) "publish" 1500);
         ok (JListingPayment listing payment)
     end)
    (catch_zod "Erreur lors de la création de l'annonce").

Definition get_listings : Store → response * Store :=
  try_catch
    (listings ← getApprovedListings; ok (JListings listings))
    (λ _, Sent 500 (JError "Erreur lors de la récupération des annonces")).

Definition get_listing (id : string) : Store → response * Store :=
  try_catch
    (listing ← getListing id;
     match listing with
     | None => mret (Sent 404 (JError "Annonce non trouvée"))
     | Some listing => ok (JListing listing)
     end)
    (λ _, Sent 500 (JError "Erreur lors de la récupération de l'annonce")).

Definition post_phone_unlock (g : Fresh) (body : jsobject) : Store → response * Store :=
  try_catch
    (validatedData ← parse insertPhoneUnlockSchema body;
     unlock ← createPhoneUnlock (uuid1 g) (now1 g) validatedData;
     payment ← createPayment (uuid2 g) (now2 g) (InsertPayment.mk None "unlock" 2500);
     ok (JUnlockPayment unlock payment))
    (catch_zod "Erreur lors du déblocage du numéro").

Definition post_payment_confirm (id : string) : Store → response * Store :=
  try_catch
    (payment ← updatePaymentStatus id "confirmed";
     match payment with
     | None => mret (Sent 404 (JError "Paiement non trouvé"))
     | Some payment =>
         match Payment.listingId payment with
         | Some listingId =>
             if truthy (VString listingId)
                && bool_decide (Payment.type payment = "publish")
             then _ ← updateListingPaymentStatus listingId "confirmed";
                  ok (JPayment payment)
             else ok (JPayment payment)
         | None => ok (JPayment payment)
         end
     end)
    (λ _, Sent 500 (JError "Erreur lors de la confirmation du paiement")).

Definition get_admin_pending : Store → response * Store :=
  try_catch
    (listings ← getPendingListings; ok (JListings listings))
    (λ _, Sent 500 (JError "Erreur lors de la récupération des annonces en attente")).

Definition get_admin_all : Store → response * Store :=
  try_catch
    (listings ← getAllListings; ok (JListings listings))
    (λ _, Sent 500 (JError "Erreur lors de la récupération des annonces")).

Definition post_admin_approve (id : string) : Store → response * Store :=
  try_catch
    (listing ← updateListingStatus id "approved";
     match listing with
     | None => mret (Sent 404 (JError "Annonce non trouvée"))
     | Some listing => ok (JListing listing)
     end)
    (λ _, Sent 500 (JError "Erreur lors de l'approbation de l'annonce")).

Definition post_admin_reject (id : string) : Store → response * Store :=
  try_catch
    (listing ← updateListingStatus id "rejected";
     match listing with
     | None => mret (Sent 404 (JError "Annonce non trouvée"))
     | Some listing => ok (JListing listing)
     end)
    (λ _, Sent 500 (JError "Erreur lors du rejet de l'annonce")).

Definition post_admin_approve_all : Store → response * Store :=
  try_catch
    (count ← approveAllPendingListings;
     ok (JCount count (pretty count +:+ " annonce(s) approuvée(s)")))
    (λ _, Sent 500 (JError "Erreur lors de l'approbation des annonces")).

(** The routes [registerRoutes] installs. *)
Inductive request :=
| POST_listings (parts : option (list Multer.File)) (body : gmap string string)
| GET_listings
| GET_listing (id : string)
| POST_phone_unlock (body : jsobject)
| POST_payment_confirm (id : string)
| GET_admin_pending
| GET_admin_all
| POST_admin_approve (id : string)
| POST_admin_reject (id : string)
| POST_admin_approve_all.

Definition serve (g : Fresh) (req : request) : Store → response * Store :=
  match req with
  | POST_listings parts body =>
      match Multer.array "images" 10 parts with
      | Some files => post_listings g files body
      | None => λ db, (Next "MulterError", db)
      end
  | GET_listings => get_listings
  | GET_listing id => get_listing id
  | POST_phone_unlock body => post_phone_unlock g body
  | POST_payment_confirm id => post_payment_confirm id
  | GET_admin_pending => get_admin_pending
  | GET_admin_all => get_admin_all
  | POST_admin_approve id => post_admin_approve id
  | POST_admin_reject id => post_admin_reject id
  | POST_admin_approve_all => post_admin_approve_all
  end.

(** ** The constraints of the schema, as a predicate on the database

    Primary keys are unique, a [listing_id] that is not null is the id of a
    listing, and no listing has the empty string as its id: ids are only
    ever produced by [gen_random_uuid()]. The ids of listings and payments
    are texts the database can hold. *)

Definition listingIds (db : Store) : list string := Listing.id <$> listings db.

Record integrity (db : Store) : Prop := mkIntegrity {
  listings_pkey : NoDup (listingIds db);
  payments_pkey : NoDup (Payment.id <$> payments db);
  phoneUnlocks_pkey : NoDup (PhoneUnlock.id <$> phoneUnlocks db);
  payments_fk : ∀ p, p ∈ payments db →
    Sql.references_null (listingIds db) (Payment.listingId p) = true;
  phoneUnlocks_fk : ∀ u, u ∈ phoneUnlocks db →
    Sql.references (listingIds db) (PhoneUnlock.listingId u) = true;
  listings_uuid : "" ∉ listingIds db;
  listings_text : ∀ id, id ∈ listingIds db → Sql.text id;
  payments_text : ∀ p, p ∈ payments db → Sql.text (Payment.id p) }.

(** The databases the routes can produce from the empty one, each request
    served with ids that [gen_random_uuid()] can give. *)
Inductive reachable : Store → Prop :=
| reachable_empty : reachable (mkStore [] [] [])
| reachable_serve (g : Fresh) (req : request) (db : Store) :
    uuid1 g ≠ "" → uuid2 g ≠ "" → reachable db → reachable (serve g req db).2.

(** A call that finds the constraints satisfied leaves them satisfied. *)
Definition keeps_integrity : relation Store := λ db db',
  integrity db → integrity db'.

(** The rows an [update ... where] on listings touches in
    [approveAllPendingListings]. *)
Definition awaits_approval (l : Listing.t) : Prop :=
  Listing.status l = "pending" ∧ Listing.paymentStatus l = "confirmed".

(** The columns [updateListingStatus] does not name. *)
Definition same_but_status (l l' : Listing.t) : Prop :=
  Listing.id l' = Listing.id l
  ∧ Listing.city l' = Listing.city l
  ∧ Listing.commune l' = Listing.commune l
  ∧ Listing.neighborhood l' = Listing.neighborhood l
  ∧ Listing.rooms l' = Listing.rooms l
  ∧ Listing.propertyType l' = Listing.propertyType l
  ∧ Listing.transactionType l' = Listing.transactionType l
  ∧ Listing.price l' = Listing.price l
  ∧ Listing.deposit l' = Listing.deposit l
  ∧ Listing.description l' = Listing.description l
  ∧ Listing.phone l' = Listing.phone l
  ∧ Listing.images l' = Listing.images l
  ∧ Listing.paymentStatus l' = Listing.paymentStatus l
  ∧ Listing.featured l' = Listing.featured l
  ∧ Listing.createdAt l' = Listing.createdAt l.

(** ** Relating the database before and after a call

    [always R m]: whatever [m] does, it returns or throws, the database it
    leaves is related by [R] to the one it found. *)

Definition always (R : relation Store) {A} (m : M A) : Prop :=
  ∀ db, match m db with
        | Returned _ db' => R db db'
        | Threw _ db' => R db db'
        end.

(** Every listing is still there, at its position, and [T] relates what
    it was to what it is. *)
Definition evolves (T : relation Listing.t) : relation Store := λ db db',
  ∀ i l, listings db !! i = Some l → ∃ l', listings db' !! i = Some l' ∧ T l l'.

(** Same id, same status. *)
Definition kept : relation Listing.t := λ l l',
  Listing.id l' = Listing.id l ∧ Listing.status l' = Listing.status l.

(** What one request does to a listing: the id stays, and the status is
    written by the three moderation routes only (an id the database
    refuses selects no listing). *)
Definition transition (req : request) : relation Listing.t := λ l l',
  Listing.id l' = Listing.id l
  ∧ Listing.status l' =
      match req with
      | POST_admin_approve id =>
          if decide (Listing.id l = id ∧ Sql.text id) then "approved"
          else Listing.status l
      | POST_admin_reject id =>
          if decide (Listing.id l = id ∧ Sql.text id) then "rejected"
          else Listing.status l
      | POST_admin_approve_all =>
          if decide (awaits_approval l) then "approved" else Listing.status l
      | _ => Listing.status l
      end.


(** ** What the routes keep true of the rows

    [hoare P m Q E]: from a database where [P] holds, [m] returns a value
    and a database that satisfy [Q], or throws and leaves a database
    where [E] holds. *)

Definition hoare {A} (P : Store → Prop) (m : M A) (Q : A → Store → Prop)
    (E : Store → Prop) : Prop :=
  ∀ db, P db → match m db with
               | Returned a db' => Q a db'
               | Threw _ db' => E db'
               end.

(** What the schema and the [integer] columns let through, and the
    values the routes write to the other columns. *)
Definition valid_listing (l : Listing.t) : Prop :=
  1 ≤ Listing.rooms l ≤ Zod.INT32_MAX
  ∧ 1 ≤ Listing.price l ≤ Zod.INT32_MAX
  ∧ Listing.images l ≠ []
  ∧ Listing.featured l = false
  ∧ Listing.status l ∈ ["pending"; "approved"; "rejected"]
  ∧ Listing.paymentStatus l ∈ ["pending"; "confirmed"].

(** The two kinds of payment the routes create. *)
Definition route_payment (p : Payment.t) : Prop :=
  ((Payment.type p = "publish" ∧ Payment.amount p = 1500
    ∧ is_Some (Payment.listingId p))
   ∨ (Payment.type p = "unlock" ∧ Payment.amount p = 2500
      ∧ Payment.listingId p = None))
  ∧ Payment.status p ∈ ["pending"; "confirmed"].

(** There is a confirmed publish payment for the listing [id]. *)
Definition paid (db : Store) (id : string) : Prop :=
  ∃ p, p ∈ payments db ∧ Payment.listingId p = Some id
       ∧ Payment.type p = "publish" ∧ Payment.status p = "confirmed".

Record consistent (db : Store) : Prop := mkConsistent {
  listings_valid : ∀ l, l ∈ listings db → valid_listing l;
  payments_valid : ∀ p, p ∈ payments db → route_payment p;
  phoneUnlocks_pending : ∀ u, u ∈ phoneUnlocks db →
    PhoneUnlock.paymentStatus u = "pending";
  listings_paid : ∀ l, l ∈ listings db →
    Listing.paymentStatus l = "confirmed" → paid db (Listing.id l) }.

(** The constraints of the schema together with the above. *)
Definition sound (db : Store) : Prop := integrity db ∧ consistent db.

(** A listing the public list shows. *)
Definition visible (l : Listing.t) : Prop :=
  Listing.status l = "approved" ∧ Listing.paymentStatus l = "confirmed".

(** What confirming the payment [id] does to each payment, and to each
    listing: the latter depends on the first payment with that id only.
    Nothing is written for an id that the database refuses. *)
Definition confirm (id : string) (p : Payment.t) : Payment.t :=
  if decide (Payment.id p = id ∧ Sql.text id)
  then Payment.set_status "confirmed" p else p.

Definition cascade (id : string) (rows : list Payment.t) : Listing.t → Listing.t :=
  match head (filter (λ p, Payment.id p = id) rows) with
  | Some payment =>
      match Payment.listingId payment with
      | Some listingId =>
          if Sql.text_ok id && Sql.text_ok listingId && truthy (VString listingId)
             && bool_decide (Payment.type payment = "publish")
          then λ l, if decide (Listing.id l = listingId)
                    then Listing.set_paymentStatus "confirmed" l else l
          else λ l, l
      | None => λ l, l
      end
  | None => λ l, l
  end.

(** The visible listings of [db] are those of [db0]. *)
Definition same_public (db0 db : Store) : Prop :=
  filter visible (listings db) = filter visible (listings db0).

(** Each table of [db] starts with the rows of [db0], as they were. *)
Definition extends (db0 db : Store) : Prop :=
  listings db0 `prefix_of` listings db
  ∧ payments db0 `prefix_of` payments db
  ∧ phoneUnlocks db0 `prefix_of` phoneUnlocks db.

(** ** Sample data *)

Module Sample.

Definition photo : Multer.File :=
  Multer.mkFile "images" "salon.jpg" "image/jpeg" 204800 "images-1730000000000-42.jpg".

Definition form : gmap string string :=
  list_to_map
    [("city", "Kinshasa"); ("commune", "Gombe"); ("neighborhood", "Socimat");
     ("rooms", "3"); ("propertyType", "appartement");
     ("transactionType", "location"); ("price", "50000");
     ("description", "Trois chambres, vue sur le fleuve");
     ("phone", "+243810000000")].

Definition fresh : Fresh := mkFresh "listing-1" 1000 "payment-1" 1001 eq_refl eq_refl.
Definition fresh' : Fresh := mkFresh "unlock-1" 2000 "payment-2" 2001 eq_refl eq_refl.

(** The id of a second listing, and for its payment an id that is taken. *)
Definition fresh_taken : Fresh :=
  mkFresh "listing-2" 3000 "payment-1" 3001 eq_refl eq_refl.

(** A text with the character U+0000. *)
Definition nul : string := String "000"%char "sold".

Definition empty : Store := mkStore [] [] [].

(** The payload the handler builds for [form] and [photo]. *)
Definition payload : jsobject :=
  listingData form ["/uploads/images-1730000000000-42.jpg"].

Definition row (id : string) (createdAt : Z) (status paymentStatus : string)
  : Listing.t :=
  Listing.mk id "Kinshasa" "Gombe" "Socimat" 3 "appartement" "location"
    50000 None "Trois chambres, vue sur le fleuve" "+243810000000"
    ["/uploads/images-1730000000000-42.jpg"] status paymentStatus false createdAt.

Definition listing (status paymentStatus : string) : Listing.t :=
  row "listing-1" 1000 status paymentStatus.

(** Every pair of a status and a payment status, and one pair twice. *)
Definition combinations : Store :=
  mkStore
    [row "a" 1 "approved" "confirmed"; row "b" 2 "approved" "pending";
     row "c" 3 "pending" "confirmed"; row "d" 4 "pending" "pending";
     row "e" 5 "rejected" "confirmed"; row "f" 6 "rejected" "pending";
     row "g" 7 "approved" "confirmed"]
    [] [].

Definition payment (status : string) : Payment.t :=
  Payment.mk "payment-1" (Some "listing-1") "publish" 1500 status 1001.

(** What the schema makes of [payload]. *)
Definition validated (city : string) : InsertListing.t :=
  InsertListing.mk city "Gombe" "Socimat" 3 "appartement" "location" 50000 None
    "Trois chambres, vue sur le fleuve" "+243810000000"
    ["/uploads/images-1730000000000-42.jpg"].

(** The database after the listing has been created. *)
Definition created : Store :=
  mkStore [listing "pending" "pending"] [payment "pending"] [].

(** The payment confirmed, then the listing approved. *)
Definition confirmed : Store :=
  mkStore [listing "pending" "confirmed"] [payment "confirmed"] [].

Definition approved : Store :=
  mkStore [listing "approved" "confirmed"] [payment "confirmed"] [].

(** Paid for, then rejected by the administrator. *)
Definition rejected : Store :=
  mkStore [listing "rejected" "confirmed"] [payment "confirmed"] [].

End Sample.

(** * Properties *)

(** ** The query combinators *)

Section Sql_lemmas.
Context {A : Type} (f : A → A) (P : A → Prop) `{∀ r, Decision (P r)}.

Lemma update_returning_head (rows : list A) (r : A) :
  r ∈ rows → P r →
  ∃ r0, r0 ∈ rows ∧ P r0 ∧ head (Sql.update f P rows).2 = Some (f r0).
Proof.
  intros Hin HP. unfold Sql.update. simpl.
  assert (Hf : r ∈ filter P rows) by (apply list_elem_of_filter; done).
  destruct (filter P rows) as [|r0 rest] eqn:E.
  - by apply elem_of_nil in Hf.
  - exists r0. assert (Hr0 : r0 ∈ filter P rows) by (rewrite E; left).
    apply list_elem_of_filter in Hr0 as [? ?]. done.
Qed.

End Sql_lemmas.

Lemma orderBy_desc_perm {A} (key : A → Z) (rows : list A) :
  Sql.orderBy_desc key rows ≡ₚ rows.
Proof. apply merge_sort_Permutation. Qed.

Lemma orderBy_desc_sorted {A} (key : A → Z) (rows : list A) :
  StronglySorted (Sql.desc key) (Sql.orderBy_desc key rows).
Proof.
  apply StronglySorted_merge_sort.
  - intros a b c. unfold Sql.desc. lia.
  - intros a b. unfold Sql.desc. lia.
Qed.

(** ** The storage layer *)

(** C1. [getApprovedListings] returns, newest first, the listings of the
    table whose status is approved and whose payment status is confirmed,
    each as often as it is in the table: a listing is in the result if and
    only if it is in the table with exactly this pair of values. *)
Theorem getApprovedListings_spec (db : Store) :
  ∃ rows,
    getApprovedListings db = Returned rows db
    ∧ rows ≡ₚ filter (λ l, Listing.status l = "approved"
                           ∧ Listing.paymentStatus l = "confirmed") (listings db)
    ∧ StronglySorted (Sql.desc Listing.createdAt) rows
    ∧ ∀ L, L ∈ rows ↔
           L ∈ listings db
           ∧ Listing.status L = "approved" ∧ Listing.paymentStatus L = "confirmed".
Proof.
  eexists. split; [reflexivity|]. split; [apply orderBy_desc_perm|].
  split; [apply orderBy_desc_sorted|].
  intros L. rewrite orderBy_desc_perm. unfold Sql.where_.
  rewrite list_elem_of_filter. tauto.
Qed.

Example getApprovedListings_combinations :
  getApprovedListings Sample.combinations
  = Returned [Sample.row "g" 7 "approved" "confirmed";
              Sample.row "a" 1 "approved" "confirmed"] Sample.combinations.
Proof. vm_compute. reflexivity. Qed.

(** C2. [approveAllPendingListings] rewrites the table row by row: a row
    that is pending with a confirmed payment becomes the same row with
    status approved, every other row (a pending row whose payment is
    pending among them) stays as it is; the number returned counts the rows
    rewritten; payments and phone unlocks are not touched. *)
Theorem approveAllPendingListings_spec (db : Store) :
  ∃ db',
    approveAllPendingListings db
      = Returned (length (filter awaits_approval (listings db))) db'
    ∧ payments db' = payments db
    ∧ phoneUnlocks db' = phoneUnlocks db
    ∧ length (listings db') = length (listings db)
    ∧ ∀ i l, listings db !! i = Some l →
        (awaits_approval l →
           listings db' !! i = Some (Listing.set_status "approved" l)
           ∧ Listing.status (Listing.set_status "approved" l) = "approved"
           ∧ same_but_status l (Listing.set_status "approved" l))
        ∧ (¬ awaits_approval l → listings db' !! i = Some l)
        ∧ (Listing.status l = "pending" → Listing.paymentStatus l = "pending" →
           listings db' !! i = Some l).
Proof.
  eexists. split.
  { unfold approveAllPendingListings, Sql.update. rewrite length_fmap. reflexivity. }
  simpl. split; [done|]. split; [done|]. split; [apply length_fmap|].
  intros i l Hl. rewrite list_lookup_fmap, Hl. simpl.
  split; [|split].
  - intros Hp. rewrite decide_True by exact Hp. repeat split.
  - intros Hn. rewrite decide_False; [done|]. exact Hn.
  - intros _ Hps. rewrite decide_False; [done|].
    intros [_ Hc]. rewrite Hps in Hc. discriminate.
Qed.

Lemma approveAllPendingListings_spec_witness :
  ∃ db',
    approveAllPendingListings
      (mkStore [Sample.listing "pending" "confirmed"; Sample.listing "pending" "pending"]
         [] [])
    = Returned 1%nat db'
    ∧ listings db'
      = [Sample.listing "approved" "confirmed"; Sample.listing "pending" "pending"].
Proof.
  destruct (approveAllPendingListings_spec
              (mkStore [Sample.listing "pending" "confirmed";
                        Sample.listing "pending" "pending"] [] []))
    as (db' & Hcall & _ & _ & Hlen & Hrows).
  exists db'. split; [exact Hcall|].
  destruct (Hrows 0%nat (Sample.listing "pending" "confirmed") eq_refl) as ([H0 _] & _).
  { split; reflexivity. }
  destruct (Hrows 1%nat (Sample.listing "pending" "pending") eq_refl) as (_ & _ & H1).
  specialize (H1 eq_refl eq_refl).
  destruct (listings db') as [|l0 [|l1 [|l2 rest]]]; try discriminate.
  simpl in H0, H1. by injection H0 as ->; injection H1 as ->.
Defined.

(** ** What the database refuses

    A call that carries a text with U+0000 throws and writes nothing; a
    read or an update by id whose texts are free of it returns. *)

Lemma text_ok_false (id s : string) :
  ¬ (Sql.text id ∧ Sql.text s) → Sql.text_ok id && Sql.text_ok s = false.
Proof.
  intros Hno. unfold Sql.text in Hno.
  destruct (Sql.text_ok id), (Sql.text_ok s); try done. by destruct Hno.
Qed.

Lemma text_ok_true (id s : string) :
  Sql.text id → Sql.text s → Sql.text_ok id && Sql.text_ok s = true.
Proof. unfold Sql.text. by intros -> ->. Qed.

Lemma updateListingStatus_text (id status : string) (db : Store) :
  Sql.text id → Sql.text status →
  updateListingStatus id status db
  = Returned
      (head (Sql.update (Listing.set_status status) (λ l, Listing.id l = id)
               (listings db)).2)
      (with_listings
         (Sql.update (Listing.set_status status) (λ l, Listing.id l = id)
            (listings db)).1 db).
Proof. intros Hi Hs. unfold updateListingStatus. by rewrite text_ok_true. Qed.

Lemma updateListingStatus_refused (id status : string) (db : Store) :
  ¬ (Sql.text id ∧ Sql.text status) →
  updateListingStatus id status db = Threw Sql.invalid_byte db.
Proof. intros Hno. unfold updateListingStatus. by rewrite text_ok_false. Qed.

Lemma updateListingPaymentStatus_text (id paymentStatus : string) (db : Store) :
  Sql.text id → Sql.text paymentStatus →
  updateListingPaymentStatus id paymentStatus db
  = Returned
      (head (Sql.update (Listing.set_paymentStatus paymentStatus)
               (λ l, Listing.id l = id) (listings db)).2)
      (with_listings
         (Sql.update (Listing.set_paymentStatus paymentStatus)
            (λ l, Listing.id l = id) (listings db)).1 db).
Proof. intros Hi Hs. unfold updateListingPaymentStatus. by rewrite text_ok_true. Qed.

Lemma updateListingPaymentStatus_refused (id paymentStatus : string) (db : Store) :
  ¬ (Sql.text id ∧ Sql.text paymentStatus) →
  updateListingPaymentStatus id paymentStatus db = Threw Sql.invalid_byte db.
Proof. intros Hno. unfold updateListingPaymentStatus. by rewrite text_ok_false. Qed.

Lemma updatePaymentStatus_text (id status : string) (db : Store) :
  Sql.text id → Sql.text status →
  updatePaymentStatus id status db
  = Returned
      (head (Sql.update (Payment.set_status status) (λ p, Payment.id p = id)
               (payments db)).2)
      (with_payments
         (Sql.update (Payment.set_status status) (λ p, Payment.id p = id)
            (payments db)).1 db).
Proof. intros Hi Hs. unfold updatePaymentStatus. by rewrite text_ok_true. Qed.

Lemma updatePaymentStatus_refused (id status : string) (db : Store) :
  ¬ (Sql.text id ∧ Sql.text status) →
  updatePaymentStatus id status db = Threw Sql.invalid_byte db.
Proof. intros Hno. unfold updatePaymentStatus. by rewrite text_ok_false. Qed.

Lemma updatePhoneUnlockStatus_text (id paymentStatus : string) (db : Store) :
  Sql.text id → Sql.text paymentStatus →
  updatePhoneUnlockStatus id paymentStatus db
  = Returned
      (head (Sql.update (PhoneUnlock.set_paymentStatus paymentStatus)
               (λ u, PhoneUnlock.id u = id) (phoneUnlocks db)).2)
      (with_phoneUnlocks
         (Sql.update (PhoneUnlock.set_paymentStatus paymentStatus)
            (λ u, PhoneUnlock.id u = id) (phoneUnlocks db)).1 db).
Proof. intros Hi Hs. unfold updatePhoneUnlockStatus. by rewrite text_ok_true. Qed.

(** C9. [updateListingStatus] writes the status column only, whether it
    returns or throws: payments and phone unlocks are unchanged, the
    table of listings keeps its length, and the row at each position
    keeps every other column; a row with another id is not changed at
    all. It throws only when the id or the status holds U+0000, and then
    the database is as it was. *)
Theorem updateListingStatus_frame (id status : string) (db : Store) :
  ∃ db',
    ((∃ r, updateListingStatus id status db = Returned r db')
     ∨ (∃ e, updateListingStatus id status db = Threw e db')
       ∧ db' = db ∧ ¬ (Sql.text id ∧ Sql.text status))
    ∧ payments db' = payments db
    ∧ phoneUnlocks db' = phoneUnlocks db
    ∧ length (listings db') = length (listings db)
    ∧ ∀ i l, listings db !! i = Some l →
        ∃ l', listings db' !! i = Some l'
              ∧ same_but_status l l'
              ∧ (Listing.id l ≠ id → l' = l).
Proof.
  destruct (decide (Sql.text id ∧ Sql.text status)) as [[Hi Hs]|Hno].
  - eexists. split; [left; eexists; by apply updateListingStatus_text|]. simpl.
    split; [done|]. split; [done|]. split; [apply length_fmap|].
    intros i l Hl. rewrite list_lookup_fmap, Hl. simpl.
    eexists. split; [reflexivity|]. case_decide.
    + split; [repeat split | done].
    + split; [repeat split | done].
  - exists db. split.
    { right. split; [eexists; by apply updateListingStatus_refused | done]. }
    split; [done|]. split; [done|]. split; [done|].
    intros i l Hl. exists l. split; [done|]. split; [repeat split | done].
Qed.

Lemma updateListingStatus_frame_witness :
  ∃ r db',
    updateListingStatus "listing-1" "approved" Sample.created = Returned r db'
    ∧ payments db' = payments Sample.created
    ∧ ∃ l', listings db' !! 0%nat = Some l'
            ∧ same_but_status (Sample.listing "pending" "pending") l'.
Proof.
  destruct (updateListingStatus_frame "listing-1" "approved" Sample.created)
    as (db' & [[r Hcall] | (_ & _ & Hno)] & Hpay & _ & _ & Hrows).
  - exists r, db'. split; [exact Hcall|]. split; [exact Hpay|].
    destruct (Hrows 0%nat (Sample.listing "pending" "pending") eq_refl)
      as (l' & Hl' & Hsame & _).
    by exists l'.
  - destruct Hno. split; reflexivity.
Defined.

(** C10, as the specification has it, fails: not every string is taken.
    The database refuses a text with the character U+0000, for the
    status as for the payment status, and for an id of the table: both
    calls throw, and the listing keeps the values it had. *)
Lemma updateListing_refuses_nul :
  "listing-1" ∈ listingIds Sample.created
  ∧ updateListingStatus "listing-1" Sample.nul Sample.created
    = Threw Sql.invalid_byte Sample.created
  ∧ updateListingPaymentStatus "listing-1" Sample.nul Sample.created
    = Threw Sql.invalid_byte Sample.created.
Proof. split; [left | split; reflexivity]. Qed.

(** C10, amended. The two update functions take any text the database
    can hold: for an id of the table and a string [s], neither with
    U+0000, [s] in the enumeration of the specification or not, each
    returns a listing with that id whose column holds [s], and this
    listing is in the table afterwards. *)
Theorem updateListing_any_string (id s : string) (db : Store) :
  Sql.text id → Sql.text s → id ∈ listingIds db →
  (∃ l db', updateListingStatus id s db = Returned (Some l) db'
            ∧ Listing.id l = id ∧ Listing.status l = s ∧ l ∈ listings db')
  ∧ (∃ l db', updateListingPaymentStatus id s db = Returned (Some l) db'
              ∧ Listing.id l = id ∧ Listing.paymentStatus l = s ∧ l ∈ listings db').
Proof.
  intros Hti Hts (l0 & Hid & Hl0)%list_elem_of_fmap. symmetry in Hid. split.
  - destruct (update_returning_head (Listing.set_status s) (λ l, Listing.id l = id)
                (listings db) l0 Hl0 Hid) as (r0 & Hr0 & Hr0id & Hhead).
    exists (Listing.set_status s r0). eexists. split.
    { rewrite updateListingStatus_text by done. rewrite Hhead. reflexivity. }
    split; [exact Hr0id|]. split; [reflexivity|].
    simpl. apply list_elem_of_fmap. exists r0. rewrite decide_True by exact Hr0id. done.
  - destruct (update_returning_head (Listing.set_paymentStatus s)
                (λ l, Listing.id l = id) (listings db) l0 Hl0 Hid)
      as (r0 & Hr0 & Hr0id & Hhead).
    exists (Listing.set_paymentStatus s r0). eexists. split.
    { rewrite updateListingPaymentStatus_text by done. rewrite Hhead. reflexivity. }
    split; [exact Hr0id|]. split; [reflexivity|].
    simpl. apply list_elem_of_fmap. exists r0. rewrite decide_True by exact Hr0id. done.
Qed.

Lemma updateListing_any_string_witness :
  (∃ l db', updateListingStatus "listing-1" "sold" Sample.created = Returned (Some l) db'
            ∧ Listing.id l = "listing-1" ∧ Listing.status l = "sold"
            ∧ l ∈ listings db')
  ∧ (∃ l db', updateListingPaymentStatus "listing-1" "sold" Sample.created
              = Returned (Some l) db'
              ∧ Listing.id l = "listing-1" ∧ Listing.paymentStatus l = "sold"
              ∧ l ∈ listings db').
Proof.
  apply (updateListing_any_string "listing-1" "sold" Sample.created).
  - reflexivity.
  - reflexivity.
  - vm_compute. left.
Defined.

(** ** The insert schemas *)

Lemma ap_inr {A B} (f : Zod.result (A → B)) (a : Zod.result A) (y : B) :
  f <*> a = inr y → ∃ g x, f = inr g ∧ a = inr x ∧ y = g x.
Proof. destruct f, a; unfold Zod.ap; simpl; intros [=]; eauto. Qed.

Lemma ap_inl {A B} (f : Zod.result (A → B)) (a : Zod.result A) :
  (∀ e1, f = inl e1 → e1 ≠ []) → (∀ e2, a = inl e2 → e2 ≠ []) →
  ∀ e, f <*> a = inl e → e ≠ [].
Proof.
  intros Hf Ha e. destruct f as [e1|g], a as [e2|x]; unfold Zod.ap; simpl; intros [= <-].
  - intros [E _]%app_eq_nil. by eapply Hf.
  - rewrite app_nil_r. by eapply Hf.
  - by eapply Ha.
Qed.

Lemma string_inr p v s : Zod.string p v = inr s → v = VString s.
Proof. destruct v; simpl; congruence. Qed.

Lemma number_min_inr m p v z : Zod.number_min m p v = inr z → v = VNumber (Num z) ∧ m ≤ z.
Proof.
  destruct v as [| | |[|z']| |]; simpl; try discriminate.
  destruct (Z.ltb_spec z' m); intros [=]; subst. split; [done | lia].
Qed.

Lemma strings_from_inr p i l ss : Zod.strings_from p i l = inr ss → l = VString <$> ss.
Proof.
  revert i ss. induction l as [|v l IH]; simpl; intros i ss.
  - by intros [= <-].
  - intros (g & tl & (c & s & [= <-] & Hs & ->)%ap_inr & Htl & ->)%ap_inr.
    apply string_inr in Hs as ->. by rewrite (IH _ _ Htl).
Qed.

Lemma array_string_min_inr m p v ss :
  Zod.array_string_min m p v = inr ss → v = VArray (VString <$> ss) ∧ (m ≤ length ss)%nat.
Proof.
  destruct v as [| | | | |l]; simpl; try discriminate.
  intros (g & ss' & (c & u & [= <-] & Hlen & ->)%ap_inr & Hss & ->)%ap_inr.
  apply strings_from_inr in Hss as ->. split; [done|].
  rewrite length_fmap in Hlen.
  destruct (Nat.ltb_spec (length ss') m); [discriminate | lia].
Qed.

Lemma string_raises p v e : Zod.string p v = inl e → e ≠ [].
Proof. destruct v; simpl; intros [=]; by subst. Qed.

Lemma number_min_raises m p v e : Zod.number_min m p v = inl e → e ≠ [].
Proof.
  destruct v as [| | |[|z]| |]; simpl; try (intros [=]; by subst).
  destruct (z <? m); intros [=]; by subst.
Qed.

Lemma integer_nullable_raises p v e : Zod.integer_nullable p v = inl e → e ≠ [].
Proof.
  destruct v as [| | |[|z]| |]; simpl; try (intros [=]; by subst).
  destruct (z <? _); [intros [=]; by subst|].
  destruct (_ <? z); intros [=]; by subst.
Qed.

Lemma strings_from_raises p i l e : Zod.strings_from p i l = inl e → e ≠ [].
Proof.
  revert i e. induction l as [|v l IH]; simpl; intros i e; [discriminate|].
  apply ap_inl; [|by eauto].
  apply ap_inl; [discriminate | apply string_raises].
Qed.

Lemma array_string_min_raises m p v e : Zod.array_string_min m p v = inl e → e ≠ [].
Proof.
  destruct v as [| | | | |l]; simpl; try (intros [=]; by subst).
  apply ap_inl; [|apply strings_from_raises].
  apply ap_inl; [discriminate|].
  intros e2. destruct (_ <? _)%nat; intros [=]; by subst.
Qed.

(** A [ZodError] carries at least one issue. *)
Lemma insertListingSchema_raises o e : insertListingSchema o = inl e → e ≠ [].
Proof.
  revert e. unfold insertListingSchema. cbv zeta.
  repeat (apply ap_inl;
          [ | first [ apply string_raises | apply number_min_raises
                    | apply integer_nullable_raises
                    | apply array_string_min_raises ] ]).
  discriminate.
Qed.

(** What an accepted payload looks like, key by key. *)
Lemma insertListingSchema_accepted (o : jsobject) (v : InsertListing.t) :
  insertListingSchema o = inr v →
  get o "city" = VString (InsertListing.city v)
  ∧ get o "commune" = VString (InsertListing.commune v)
  ∧ get o "neighborhood" = VString (InsertListing.neighborhood v)
  ∧ (get o "rooms" = VNumber (Num (InsertListing.rooms v)) ∧ 1 ≤ InsertListing.rooms v)
  ∧ get o "propertyType" = VString (InsertListing.propertyType v)
  ∧ get o "transactionType" = VString (InsertListing.transactionType v)
  ∧ (get o "price" = VNumber (Num (InsertListing.price v)) ∧ 1 ≤ InsertListing.price v)
  ∧ get o "description" = VString (InsertListing.description v)
  ∧ get o "phone" = VString (InsertListing.phone v)
  ∧ (get o "images" = VArray (VString <$> InsertListing.images v)
     ∧ (1 ≤ length (InsertListing.images v))%nat).
Proof.
  unfold insertListingSchema. cbv zeta. intros H.
  repeat match goal with
         | H : _ <*> _ = inr _ |- _ =>
             let g := fresh "g" in let x := fresh "x" in let Hx := fresh "Hx" in
             apply ap_inr in H as (g & x & H & Hx & ->)
         end.
  injection H as <-. simpl.
  repeat match goal with
         | H : Zod.string _ _ = inr _ |- _ => apply string_inr in H
         | H : Zod.number_min _ _ _ = inr _ |- _ => apply number_min_inr in H
         | H : Zod.array_string_min _ _ _ = inr _ |- _ => apply array_string_min_inr in H
         end.
  repeat split; tauto.
Qed.

(** C4, as the specification has it, fails: the text columns are plain
    [z.string()], and the empty string is a string. Here the city is empty
    and the payload is accepted; sent through the route, it makes a
    listing whose city is empty. *)
Lemma insertListingSchema_accepts_empty_city :
  get (<["city" := VString ""]> Sample.payload) "city" = VString ""
  ∧ insertListingSchema (<["city" := VString ""]> Sample.payload)
    = inr (Sample.validated "")
  ∧ (serve Sample.fresh
       (POST_listings (Some [Sample.photo]) (<["city" := ""]> Sample.form))
       Sample.empty).1
    = Sent 200 (JListingPayment
                  (listings_values "listing-1" 1000 (Sample.validated ""))
                  (Sample.payment "pending")).
Proof. repeat split; vm_compute; reflexivity. Qed.

(** C4, amended. A payload is rejected, with a [ZodError] of at least one
    issue, whenever one of the seven text fields is not a string (missing,
    null, or of another type), or [rooms] or [price] is not a number of at
    least 1, or [images] is not an array with at least one element. *)
Theorem insertListingSchema_rejects (o : jsobject) :
  (∃ k, k ∈ ["city"; "commune"; "neighborhood"; "propertyType";
             "transactionType"; "description"; "phone"]
        ∧ ∀ s, get o k ≠ VString s)
  ∨ (∀ z, get o "rooms" = VNumber (Num z) → z < 1)
  ∨ (∀ z, get o "price" = VNumber (Num z) → z < 1)
  ∨ (∀ l, get o "images" = VArray l → l = []) →
  ∃ issues, issues ≠ [] ∧ insertListingSchema o = inl issues.
Proof.
  intros Hbad. destruct (insertListingSchema o) as [e|v] eqn:E.
  { exists e. split; [by eapply insertListingSchema_raises | done]. }
  exfalso. apply insertListingSchema_accepted in E
    as (Hc & Hco & Hn & [Hr Hr1] & Hpt & Htt & [Hp Hp1] & Hd & Hph & [Hi Hi1]).
  destruct Hbad as [(k & Hk & Hs) | [Hrooms | [Hprice | Himages]]].
  - repeat (apply elem_of_cons in Hk as [-> | Hk]; [by eapply Hs|]).
    by apply elem_of_nil in Hk.
  - specialize (Hrooms _ Hr). lia.
  - specialize (Hprice _ Hp). lia.
  - specialize (Himages _ Hi). apply fmap_nil_inv in Himages.
    rewrite Himages in Hi1. simpl in Hi1. lia.
Qed.

Lemma insertListingSchema_rejects_witness :
  ∃ issues, issues ≠ [] ∧ insertListingSchema (delete "city" Sample.payload) = inl issues.
Proof.
  apply (insertListingSchema_rejects (delete "city" Sample.payload)).
  left. exists "city". split; [by left|]. intros s. vm_compute. discriminate.
Defined.

(** The keys outside the shape of the schema play no part in it. *)
Lemma get_insert_ne (o : jsobject) (k k' : string) (v : jsval) :
  k ≠ k' → get (<[k := v]> o) k' = get o k'.
Proof. intros Hne. unfold get. by rewrite lookup_insert_ne. Qed.

(** C6, as the specification has it, fails: the payload below names a
    status and is accepted; the status is not in the validated value, and
    the listing the route makes of it is pending. *)
Lemma insertListingSchema_accepts_status :
  get (<["status" := VString "approved"]> Sample.payload) "status" = VString "approved"
  ∧ insertListingSchema (<["status" := VString "approved"]> Sample.payload)
    = inr (Sample.validated "Kinshasa")
  ∧ serve Sample.fresh
      (POST_listings (Some [Sample.photo]) (<["status" := "approved"]> Sample.form))
      Sample.empty
    = (Sent 200 (JListingPayment (Sample.listing "pending" "pending")
                   (Sample.payment "pending")),
       Sample.created).
Proof. repeat split; vm_compute; reflexivity. Qed.

(** C6, amended. A server-assigned field in the payload is ignored: with
    any value under [id], [status], [paymentStatus], [featured] or
    [createdAt], validation gives what it gives without that key, the same
    issues or the same validated value. *)
Theorem insertListingSchema_strips (k : string) (v : jsval) (o : jsobject) :
  k ∈ ["id"; "status"; "paymentStatus"; "featured"; "createdAt"] →
  insertListingSchema (<[k := v]> o) = insertListingSchema o.
Proof.
  intros Hk. unfold insertListingSchema. cbv zeta.
  repeat (apply elem_of_cons in Hk as [-> | Hk];
          [by rewrite !get_insert_ne by done|]).
  by apply elem_of_nil in Hk.
Qed.

Lemma insertListingSchema_strips_witness :
  insertListingSchema (<["status" := VString "approved"]> Sample.payload)
  = insertListingSchema Sample.payload.
Proof.
  apply (insertListingSchema_strips "status" (VString "approved") Sample.payload).
  right. left.
Defined.

(** ** The request handlers *)

(** Unfolds a handler down to the calls of the storage layer. *)
Ltac run :=
  unfold try_catch, ok, parse, throw, mbind, M_bind, mret, M_ret; simpl.

Lemma where_none {A} (P : A → Prop) `{∀ r, Decision (P r)} (rows : list A) :
  (∀ r, r ∈ rows → ¬ P r) → filter P rows = [].
Proof.
  intros Hno. destruct (filter P rows) as [|r rest] eqn:E; [done|].
  assert (Hr : r ∈ filter P rows) by (rewrite E; left).
  apply list_elem_of_filter in Hr as [HP Hr]. by destruct (Hno r Hr).
Qed.

(** Under a primary key, [where id = k] selects the one row with that key. *)
Lemma where_pkey {A} (key : A → string) (rows : list A) (r : A) :
  NoDup (key <$> rows) → r ∈ rows →
  filter (λ x, key x = key r) rows = [r].
Proof.
  induction rows as [|a rows IH]; intros Hnd Hr.
  - by apply elem_of_nil in Hr.
  - rewrite fmap_cons in Hnd. apply NoDup_cons in Hnd as [Ha Hnd].
    apply elem_of_cons in Hr as [-> | Hr].
    + rewrite filter_cons_True by done. f_equal.
      apply where_none. intros x Hx Hk.
      apply Ha. rewrite <- Hk. by apply list_elem_of_fmap_2.
    + rewrite filter_cons_False; [by apply IH|].
      intros Hk. apply Ha. rewrite Hk. by apply list_elem_of_fmap_2.
Qed.

(** The listing a payment of the database refers to is never the empty
    string. *)
Lemma payment_listingId_truthy (db : Store) (p : Payment.t) (lid : string) :
  integrity db → p ∈ payments db → Payment.listingId p = Some lid →
  truthy (VString lid) = true.
Proof.
  intros Hdb Hp Hl. pose proof (payments_fk db Hdb p Hp) as Hfk.
  rewrite Hl in Hfk. simpl in Hfk. apply bool_decide_eq_true in Hfk.
  simpl. destruct (String.eqb_spec lid ""); [subst|done].
  by destruct (listings_uuid db Hdb).
Qed.

Lemma payment_listingId_text (db : Store) (p : Payment.t) (lid : string) :
  integrity db → p ∈ payments db → Payment.listingId p = Some lid → Sql.text lid.
Proof.
  intros Hdb Hp Hl. pose proof (payments_fk db Hdb p Hp) as Hfk.
  rewrite Hl in Hfk. simpl in Hfk. apply bool_decide_eq_true in Hfk.
  by apply (listings_text db Hdb).
Qed.

(** C3. In a database that satisfies the constraints of the schema,
    confirming a payment of the table answers with that payment,
    confirmed, and writes the status of that payment only. When the
    payment is of type publish and has a listing id, the listing with this
    id, and no other, has its payment status set to confirmed; when the
    type is not publish or there is no listing id the listings are left as
    they were, so confirming an unlock payment changes no listing. Phone
    unlocks never change. *)
Theorem post_payment_confirm_spec (id : string) (db : Store) (p : Payment.t) :
  integrity db → p ∈ payments db → Payment.id p = id →
  ∃ db',
    post_payment_confirm id db
      = (Sent 200 (JPayment (Payment.set_status "confirmed" p)), db')
    ∧ payments db'
      = (λ q, if decide (Payment.id q = id)
              then Payment.set_status "confirmed" q else q) <$> payments db
    ∧ phoneUnlocks db' = phoneUnlocks db
    ∧ (∀ lid, Payment.type p = "publish" → Payment.listingId p = Some lid →
         listings db'
         = (λ l, if decide (Listing.id l = lid)
                 then Listing.set_paymentStatus "confirmed" l else l) <$> listings db)
    ∧ (Payment.type p ≠ "publish" ∨ Payment.listingId p = None →
         listings db' = listings db)
    ∧ (Payment.type p = "unlock" → listings db' = listings db).
Proof.
  intros Hdb Hp <-.
  pose proof (where_pkey Payment.id (payments db) p (payments_pkey db Hdb) Hp) as Hw.
  unfold post_payment_confirm, try_catch, mbind, M_bind.
  rewrite updatePaymentStatus_text by (done || apply (payments_text db Hdb p Hp)).
  unfold Sql.update. cbn [fst snd]. rewrite Hw.
  cbn [fmap list_fmap head Payment.listingId Payment.type Payment.set_status].
  destruct (Payment.listingId p) as [lid|] eqn:Hl.
  - rewrite (payment_listingId_truthy db p lid Hdb Hp Hl). cbn [andb].
    case_bool_decide as Ht.
    + rewrite updateListingPaymentStatus_text
        by (done || apply (payment_listingId_text db p lid Hdb Hp Hl)).
      eexists. split; [reflexivity|]. simpl.
      split; [done|]. split; [done|]. split; [|split].
      * by intros lid' _ [= <-].
      * intros [? | ?]; done.
      * intros Hu. rewrite Hu in Ht. discriminate.
    + eexists. split; [reflexivity|]. simpl.
      split; [done|]. split; [done|]. split; [|split]; done.
  - eexists. split; [reflexivity|]. simpl.
    split; [done|]. split; [done|]. split; [|split]; done.
Qed.

Lemma created_integrity : integrity Sample.created.
Proof.
  split; simpl.
  - apply NoDup_singleton.
  - apply NoDup_singleton.
  - apply NoDup_nil_2.
  - intros p ->%list_elem_of_singleton. vm_compute. reflexivity.
  - intros u Hu. by apply elem_of_nil in Hu.
  - intros Hin. apply list_elem_of_singleton in Hin. discriminate.
  - intros id ->%list_elem_of_singleton. reflexivity.
  - intros p ->%list_elem_of_singleton. reflexivity.
Qed.

Lemma post_payment_confirm_spec_witness :
  ∃ db',
    post_payment_confirm "payment-1" Sample.created
    = (Sent 200 (JPayment (Sample.payment "confirmed")), db')
    ∧ listings db' = [Sample.listing "pending" "confirmed"].
Proof.
  destruct (post_payment_confirm_spec "payment-1" Sample.created
              (Sample.payment "pending") created_integrity)
    as (db' & Hserve & _ & _ & Hcascade & _).
  - left.
  - reflexivity.
  - exists db'. split; [exact Hserve|].
    apply (Hcascade "listing-1"); reflexivity.
Defined.

(** ** Reasoning about a handler call by call *)

Section always.
Context (R : relation Store) `{!Reflexive R, !Transitive R}.

Lemma always_mret {A} (a : A) : always R (mret a).
Proof. intros db. simpl. reflexivity. Qed.

Lemma always_throw {A} (e : exn) : always R (throw e : M A).
Proof. intros db. simpl. reflexivity. Qed.

Lemma always_bind {A B} (m : M A) (k : A → M B) :
  always R m → (∀ a, always R (k a)) → always R (m ≫= k).
Proof.
  intros Hm Hk db. unfold mbind, M_bind. specialize (Hm db).
  destruct (m db) as [a db1|e db1]; [|done].
  specialize (Hk a db1). destruct (k a db1); by etrans.
Qed.

Lemma always_parse {A} (schema : jsobject → Zod.result A) (o : jsobject) :
  always R (parse schema o).
Proof. unfold parse. destruct (schema o); [apply always_throw | apply always_mret]. Qed.

(** A call that only reads. *)
Lemma always_read {A} (m : M A) :
  (∀ db, ∃ a, m db = Returned a db) → always R m.
Proof. intros Hm db. destruct (Hm db) as [a ->]. reflexivity. Qed.

Lemma always_try_catch (body : M response) (handler : exn → response) (db : Store) :
  always R body → R db (try_catch body handler db).2.
Proof. intros Hb. unfold try_catch. specialize (Hb db). by destruct (body db). Qed.
End always.

#[export] Instance kept_refl : Reflexive kept.
Proof. by intros l. Qed.

#[export] Instance kept_trans : Transitive kept.
Proof. intros l1 l2 l3 [? ?] [? ?]. split; congruence. Qed.

#[export] Instance evolves_refl (T : relation Listing.t) `{!Reflexive T} :
  Reflexive (evolves T).
Proof. intros db i l Hl. by exists l. Qed.

#[export] Instance evolves_trans (T : relation Listing.t) `{!Transitive T} :
  Transitive (evolves T).
Proof.
  intros db1 db2 db3 H12 H23 i l Hl.
  destruct (H12 i l Hl) as (l2 & Hl2 & ?). destruct (H23 i l2 Hl2) as (l3 & ? & ?).
  exists l3. split; [done | by etrans].
Qed.

(** The listings are rewritten in place by [f], and rows may be added. *)
Lemma evolves_rewrite (T : relation Listing.t) (f : Listing.t → Listing.t)
    (added : list Listing.t) (db db' : Store) :
  listings db' = (f <$> listings db) ++ added → (∀ l, T l (f l)) → evolves T db db'.
Proof.
  intros Hrows Hf i l Hl. exists (f l). split; [|done].
  rewrite Hrows. apply lookup_app_l_Some. by rewrite list_lookup_fmap, Hl.
Qed.

Lemma evolves_same (T : relation Listing.t) `{!Reflexive T} (db db' : Store) :
  listings db' = listings db → evolves T db db'.
Proof. intros Hrows i l Hl. exists l. by rewrite Hrows. Qed.

Lemma createListing_kept newId now v : always (evolves kept) (createListing newId now v).
Proof.
  intros db. unfold createListing.
  destruct (negb _); [reflexivity|].
  destruct (negb _); [reflexivity|]. destruct (decide _); [reflexivity|].
  eapply (evolves_rewrite kept id); [simpl; by rewrite list_fmap_id | done].
Qed.

Lemma createPayment_kept newId now v : always (evolves kept) (createPayment newId now v).
Proof.
  intros db. unfold createPayment.
  destruct (negb _); [reflexivity|].
  destruct (negb _); [reflexivity|]. destruct (decide _); [reflexivity|].
  destruct (Sql.references_null _ _); by apply evolves_same.
Qed.

Lemma createPhoneUnlock_kept newId now v :
  always (evolves kept) (createPhoneUnlock newId now v).
Proof.
  intros db. unfold createPhoneUnlock.
  destruct (negb _); [reflexivity|]. destruct (decide _); [reflexivity|].
  destruct (Sql.references _ _); by apply evolves_same.
Qed.

Lemma updatePaymentStatus_kept id status :
  always (evolves kept) (updatePaymentStatus id status).
Proof.
  intros db. unfold updatePaymentStatus.
  destruct (_ && _); [by apply evolves_same | reflexivity].
Qed.

Lemma updateListingPaymentStatus_kept id paymentStatus :
  always (evolves kept) (updateListingPaymentStatus id paymentStatus).
Proof.
  intros db. unfold updateListingPaymentStatus.
  destruct (_ && _); [|reflexivity]. simpl.
  apply (evolves_rewrite kept
           (λ l, if decide (Listing.id l = id)
                 then Listing.set_paymentStatus paymentStatus l else l) []);
    [simpl; by rewrite app_nil_r|].
  intros l. by case_decide.
Qed.

(** One call of a handler that keeps ids and statuses. *)
Ltac keeps :=
  first [ apply always_mret; apply _
        | apply always_parse; apply _
        | apply createListing_kept
        | apply createPayment_kept
        | apply createPhoneUnlock_kept
        | apply updatePaymentStatus_kept
        | apply updateListingPaymentStatus_kept ].

Lemma post_listings_kept g files body db :
  evolves kept db (post_listings g files body db).2.
Proof.
  unfold post_listings. apply always_try_catch.
  destruct files as [[|f fs]|]; try keeps.
  repeat (apply always_bind; [apply _ | keeps | intros ?]). keeps.
Qed.

Lemma post_phone_unlock_kept g body db :
  evolves kept db (post_phone_unlock g body db).2.
Proof.
  unfold post_phone_unlock. apply always_try_catch.
  repeat (apply always_bind; [apply _ | keeps | intros ?]). keeps.
Qed.

Lemma post_payment_confirm_kept id db :
  evolves kept db (post_payment_confirm id db).2.
Proof.
  unfold post_payment_confirm. apply always_try_catch.
  apply always_bind; [apply _ | keeps | intros [p|]]; [|keeps].
  destruct (Payment.listingId p) as [lid|]; [|keeps].
  destruct (_ && _); [|keeps].
  apply always_bind; [apply _ | keeps | intros _]. keeps.
Qed.

(** The database the approve and the reject route leave. *)
Lemma moderate_db (id status : string) (k : option Listing.t → M response)
    (handler : exn → response) (db : Store) :
  Sql.text status → (∀ r, ∃ a, ∀ db', k r db' = Returned a db') →
  (try_catch (updateListingStatus id status ≫= k) handler db).2
  = mkStore ((λ l, if decide (Listing.id l = id ∧ Sql.text id)
                   then Listing.set_status status l else l) <$> listings db)
      (payments db) (phoneUnlocks db).
Proof.
  intros Hs Hk. unfold try_catch, mbind, M_bind.
  destruct (decide (Sql.text id)) as [Hi|Hi].
  - rewrite updateListingStatus_text by done. unfold Sql.update. cbn [fst snd].
    destruct (Hk (head (Listing.set_status status
                          <$> filter (λ l, Listing.id l = id) (listings db)))) as [a ->].
    unfold with_listings. cbn [snd]. f_equal.
    apply list_fmap_ext. intros i l _. repeat case_decide; tauto.
  - rewrite updateListingStatus_refused by tauto. cbn [snd].
    destruct db as [ls ps us]. cbn [listings payments phoneUnlocks]. f_equal.
    rewrite <- (list_fmap_id ls) at 1. apply list_fmap_ext. intros i l _.
    rewrite decide_False; [done | tauto].
Qed.

Lemma post_admin_approve_db (id : string) (db : Store) :
  (post_admin_approve id db).2
  = mkStore ((λ l, if decide (Listing.id l = id ∧ Sql.text id)
                   then Listing.set_status "approved" l else l) <$> listings db)
      (payments db) (phoneUnlocks db).
Proof.
  apply moderate_db; [reflexivity|]. intros [l|]; eexists; intros db'; reflexivity.
Qed.

Lemma post_admin_reject_db (id : string) (db : Store) :
  (post_admin_reject id db).2
  = mkStore ((λ l, if decide (Listing.id l = id ∧ Sql.text id)
                   then Listing.set_status "rejected" l else l) <$> listings db)
      (payments db) (phoneUnlocks db).
Proof.
  apply moderate_db; [reflexivity|]. intros [l|]; eexists; intros db'; reflexivity.
Qed.

Lemma post_admin_approve_listings (id : string) (db : Store) :
  listings (post_admin_approve id db).2
  = ((λ l, if decide (Listing.id l = id ∧ Sql.text id)
           then Listing.set_status "approved" l else l) <$> listings db) ++ [].
Proof. by rewrite post_admin_approve_db, app_nil_r. Qed.

Lemma post_admin_reject_listings (id : string) (db : Store) :
  listings (post_admin_reject id db).2
  = ((λ l, if decide (Listing.id l = id ∧ Sql.text id)
           then Listing.set_status "rejected" l else l) <$> listings db) ++ [].
Proof. by rewrite post_admin_reject_db, app_nil_r. Qed.

(** C5, as the specification has it, fails: approve and reject write the
    status whatever it was. A rejected listing is approved by the approve
    route, and is then in the public list; an approved one is rejected by
    the reject route. *)
Lemma rejected_listing_approved :
  Listing.status <$> listings Sample.rejected = ["rejected"]
  ∧ serve Sample.fresh (POST_admin_approve "listing-1") Sample.rejected
    = (Sent 200 (JListing (Sample.listing "approved" "confirmed")),
       mkStore [Sample.listing "approved" "confirmed"] [Sample.payment "confirmed"] [])
  ∧ (serve Sample.fresh (POST_admin_reject "listing-1")
       (mkStore [Sample.listing "approved" "confirmed"] [Sample.payment "confirmed"] [])).2
    = Sample.rejected.
Proof. repeat split. Qed.

(** C5, amended. Every route keeps every listing in the table, with its
    id. Approve by id sets the status of the listing with that id to
    approved and reject by id sets it to rejected, whatever the status was
    (so approved and rejected are not terminal); approve-all sets to
    approved the listings that are pending with a confirmed payment; on
    every other listing, and in every other route, the status stays what
    it was. In particular no route sets a status back to pending. *)
Theorem listing_status_transition (g : Fresh) (req : request) (db : Store)
    (i : nat) (l : Listing.t) :
  listings db !! i = Some l →
  ∃ l', listings (serve g req db).2 !! i = Some l' ∧ transition req l l'.
Proof.
  revert i l. change (evolves (transition req) db (serve g req db).2).
  destruct req as [parts body| |lid0|ubody|pid| | |aid|rid|]; unfold serve.
  - destruct (Multer.array _ _ _); [apply post_listings_kept | reflexivity].
  - reflexivity.
  - unfold get_listing, try_catch, getListing, mbind, M_bind.
    destruct (Sql.text_ok lid0); [destruct (head _)|]; reflexivity.
  - apply post_phone_unlock_kept.
  - apply post_payment_confirm_kept.
  - reflexivity.
  - reflexivity.
  - apply (evolves_rewrite _
             (λ l, if decide (Listing.id l = aid ∧ Sql.text aid)
                   then Listing.set_status "approved" l else l) []).
    + apply post_admin_approve_listings.
    + intros l. unfold transition. by case_decide.
  - apply (evolves_rewrite _
             (λ l, if decide (Listing.id l = rid ∧ Sql.text rid)
                   then Listing.set_status "rejected" l else l) []).
    + apply post_admin_reject_listings.
    + intros l. unfold transition. by case_decide.
  - apply (evolves_rewrite _
             (λ l, if decide (awaits_approval l)
                   then Listing.set_status "approved" l else l) []).
    + by rewrite app_nil_r.
    + intros l. unfold transition. by case_decide.
Qed.

Lemma listing_status_transition_witness :
  ∃ l', listings (serve Sample.fresh (POST_admin_approve "listing-1") Sample.rejected).2
          !! 0%nat = Some l'
        ∧ transition (POST_admin_approve "listing-1")
            (Sample.listing "rejected" "confirmed") l'.
Proof.
  apply (listing_status_transition Sample.fresh (POST_admin_approve "listing-1")
           Sample.rejected 0 (Sample.listing "rejected" "confirmed")).
  reflexivity.
Defined.

Lemma bind_returned {A B} (m : M A) (k : A → M B) (db db' : Store) (a : A) :
  m db = Returned a db' → (m ≫= k) db = k a db'.
Proof. intros Hm. unfold mbind, M_bind. by rewrite Hm. Qed.

Lemma parse_returned {A} (schema : jsobject → Zod.result A) (o : jsobject) (v : A)
    (db : Store) :
  schema o = inr v → parse schema o db = Returned v db.
Proof. intros Hv. unfold parse. by rewrite Hv. Qed.

Lemma texts_ok_Forall (values : list string) :
  Forall Sql.text values ↔ Sql.texts_ok values = true.
Proof.
  unfold Sql.texts_ok. rewrite forallb_forall, Forall_forall.
  split; intros H x Hx; apply H; by apply list_elem_of_In.
Qed.

Lemma createListing_returned (newId : string) (now : Z) (v : InsertListing.t)
    (db : Store) :
  Sql.text newId →
  Sql.texts_ok (InsertListing.texts v) = true →
  Sql.int4 (InsertListing.rooms v) = true →
  Sql.int4 (InsertListing.price v) = true →
  Sql.int4_null (InsertListing.deposit v) = true →
  newId ∉ listingIds db →
  createListing newId now v db
  = Returned (listings_values newId now v)
      (with_listings (listings db ++ [listings_values newId now v]) db).
Proof.
  intros Hn Ht Hr Hp Hd Hid. unfold createListing. rewrite Hn, Ht.
  cbn [listings_values Listing.rooms Listing.price Listing.deposit].
  rewrite Hr, Hp, Hd. cbn [negb andb]. by rewrite decide_False.
Qed.







(** The same form with U+0000 in the name of the city: the schema takes
    it, a string, the database does not. *)
Example post_listings_nul_city :
  serve Sample.fresh
    (POST_listings (Some [Sample.photo]) (<["city" := Sample.nul]> Sample.form))
    Sample.empty
  = (Sent 500 (JError "Erreur lors de la création de l'annonce"), Sample.empty).
Proof. vm_compute. reflexivity. Qed.

(** A file of exactly 10 MiB does not reach the handler. *)
Example post_listings_file_at_limit :
  serve Sample.fresh
    (POST_listings
       (Some [Multer.mkFile "images" "salon.jpg" "image/jpeg" 10485760
                "images-1730000000000-42.jpg"])
       Sample.form)
    Sample.empty
  = (Next "MulterError", Sample.empty).
Proof. vm_compute. reflexivity. Qed.



(** The foreign key at work: a body that passes the schema but names no
    listing gets 500, and nothing is written. *)
Example post_phone_unlock_unknown_listing :
  serve Sample.fresh' (POST_phone_unlock {["listingId" := VString "listing-9"]})
    Sample.created
  = (Sent 500 (JError "Erreur lors du déblocage du numéro"), Sample.created).
Proof. vm_compute. reflexivity. Qed.

(** ** The constraints hold in every database the routes can reach *)

#[export] Instance keeps_integrity_refl : Reflexive keeps_integrity.
Proof. intros db Hdb. exact Hdb. Qed.

#[export] Instance keeps_integrity_trans : Transitive keeps_integrity.
Proof. intros db1 db2 db3 H12 H23 H. by apply H23, H12. Qed.

Lemma update_keys {A} (key : A → string) (f : A → A) (P : A → Prop)
    `{∀ r, Decision (P r)} (rows : list A) :
  (∀ r, key (f r) = key r) → key <$> (Sql.update f P rows).1 = key <$> rows.
Proof.
  intros Hkey. unfold Sql.update. simpl. rewrite <- list_fmap_compose.
  apply list_fmap_ext. intros i r _. simpl. by case_decide.
Qed.

Lemma integrity_listings (rows : list Listing.t) (db : Store) :
  Listing.id <$> rows = listingIds db → keeps_integrity db (with_listings rows db).
Proof.
  intros Hids [H1 H2 H3 H4 H5 H6 H7 H8].
  split; unfold listingIds in *; simpl; rewrite ?Hids; done.
Qed.

Lemma integrity_payments (rows : list Payment.t) (db : Store) :
  Payment.id <$> rows = Payment.id <$> payments db →
  (∀ p', p' ∈ rows → ∃ p, p ∈ payments db ∧ Payment.listingId p' = Payment.listingId p) →
  keeps_integrity db (with_payments rows db).
Proof.
  intros Hids Hfk [H1 H2 H3 H4 H5 H6 H7 H8].
  split; unfold listingIds in *; simpl; rewrite ?Hids; try done.
  - intros p' (p & Hp & ->)%Hfk. by apply H4.
  - intros p' Hp'. apply (list_elem_of_fmap_2 Payment.id) in Hp'.
    rewrite Hids in Hp'. apply list_elem_of_fmap in Hp' as (p & -> & Hp). by apply H8.
Qed.

Lemma references_app (ids : list string) (k newId : string) :
  Sql.references ids k = true → Sql.references (ids ++ [newId]) k = true.
Proof.
  unfold Sql.references. rewrite !bool_decide_eq_true, elem_of_app. by left.
Qed.

Lemma createListing_integrity newId now v :
  newId ≠ "" → always keeps_integrity (createListing newId now v).
Proof.
  intros Hne db. unfold createListing.
  destruct (negb (Sql.text_ok _ && _)) eqn:Htext; [reflexivity|].
  apply negb_false_iff, andb_true_iff in Htext as [Htext _].
  destruct (negb _); [reflexivity|]. destruct (decide _) as [|Hnew]; [reflexivity|].
  intros [H1 H2 H3 H4 H5 H6 H7 H8]. split; unfold listingIds in *; simpl; try done.
  - rewrite fmap_app. apply NoDup_app. split; [done|]. split; [|apply NoDup_singleton].
    intros x Hx ->%list_elem_of_singleton. done.
  - intros p Hp. specialize (H4 p Hp). rewrite fmap_app. simpl.
    destruct (Payment.listingId p); [by apply references_app | done].
  - intros u Hu. rewrite fmap_app. by apply references_app, H5.
  - rewrite fmap_app. intros [?|Hin%list_elem_of_singleton]%elem_of_app; [done|].
    simpl in Hin. congruence.
  - rewrite fmap_app. intros x [Hx | ->%list_elem_of_singleton]%elem_of_app;
      [by apply H7 | exact Htext].
Qed.

Lemma createPayment_integrity newId now v :
  always keeps_integrity (createPayment newId now v).
Proof.
  intros db. unfold createPayment.
  destruct (negb (Sql.text_ok _ && _)) eqn:Htext; [reflexivity|].
  apply negb_false_iff, andb_true_iff in Htext as [Htext _].
  destruct (negb _); [reflexivity|]. destruct (decide _) as [|Hnew]; [reflexivity|].
  destruct (Sql.references_null _ _) eqn:Hfk; [|reflexivity].
  intros [H1 H2 H3 H4 H5 H6 H7 H8]. split; unfold listingIds in *; simpl; try done.
  - rewrite fmap_app. apply NoDup_app. split; [done|]. split; [|apply NoDup_singleton].
    intros x Hx ->%list_elem_of_singleton. done.
  - intros p [Hp | ->%list_elem_of_singleton]%elem_of_app; [by apply H4 | exact Hfk].
  - intros p [Hp | ->%list_elem_of_singleton]%elem_of_app; [by apply H8 | exact Htext].
Qed.

Lemma createPhoneUnlock_integrity newId now v :
  always keeps_integrity (createPhoneUnlock newId now v).
Proof.
  intros db. unfold createPhoneUnlock.
  destruct (negb _); [reflexivity|].
  destruct (decide _) as [|Hnew]; [reflexivity|].
  destruct (Sql.references _ _) eqn:Hfk; [|reflexivity].
  intros [H1 H2 H3 H4 H5 H6 H7 H8]. split; unfold listingIds in *; simpl; try done.
  - rewrite fmap_app. apply NoDup_app. split; [done|]. split; [|apply NoDup_singleton].
    intros x Hx ->%list_elem_of_singleton. done.
  - intros u [Hu | ->%list_elem_of_singleton]%elem_of_app; [by apply H5 | exact Hfk].
Qed.

Lemma getListing_integrity id : always keeps_integrity (getListing id).
Proof. intros db. unfold getListing. destruct (Sql.text_ok id); reflexivity. Qed.

Lemma updatePaymentStatus_integrity id status :
  always keeps_integrity (updatePaymentStatus id status).
Proof.
  intros db. unfold updatePaymentStatus. destruct (_ && _); [|reflexivity].
  simpl. apply integrity_payments.
  - by apply (update_keys Payment.id).
  - intros p' (p & -> & Hp)%list_elem_of_fmap. exists p. split; [done|]. by case_decide.
Qed.

Lemma updateListingStatus_integrity id status :
  always keeps_integrity (updateListingStatus id status).
Proof.
  intros db. unfold updateListingStatus. destruct (_ && _); [|reflexivity].
  simpl. apply integrity_listings. by apply (update_keys Listing.id).
Qed.

Lemma updateListingPaymentStatus_integrity id paymentStatus :
  always keeps_integrity (updateListingPaymentStatus id paymentStatus).
Proof.
  intros db. unfold updateListingPaymentStatus. destruct (_ && _); [|reflexivity].
  simpl. apply integrity_listings. by apply (update_keys Listing.id).
Qed.

Lemma approveAllPendingListings_integrity :
  always keeps_integrity approveAllPendingListings.
Proof. intros db. simpl. apply integrity_listings. by apply (update_keys Listing.id). Qed.

(** One call of a handler, for the constraints. *)
Ltac sound :=
  first [ apply (always_mret keeps_integrity)
        | apply (always_parse keeps_integrity)
        | apply (always_read keeps_integrity); intros ?; eexists; reflexivity
        | apply createListing_integrity; assumption
        | apply createPayment_integrity
        | apply createPhoneUnlock_integrity
        | apply getListing_integrity
        | apply updatePaymentStatus_integrity
        | apply updateListingStatus_integrity
        | apply updateListingPaymentStatus_integrity
        | apply approveAllPendingListings_integrity ].

Lemma empty_integrity : integrity Sample.empty.
Proof.
  split; simpl; try apply NoDup_nil_2; try apply not_elem_of_nil;
    intros ? Hin; by apply elem_of_nil in Hin.
Qed.

(** An id from [gen_random_uuid()] is not the empty string; then every
    route takes a database that satisfies the constraints to one that
    does, whatever the request. *)
Theorem serve_integrity (g : Fresh) (req : request) (db : Store) :
  uuid1 g ≠ "" → integrity db → integrity (serve g req db).2.
Proof.
  intros Hne. change (keeps_integrity db (serve g req db).2).
  destruct req; unfold serve.
  - destruct (Multer.array _ _ _) as [files|]; [|reflexivity].
    unfold post_listings. apply (always_try_catch keeps_integrity).
    destruct files as [[|f fs]|]; try sound.
    repeat (apply (always_bind keeps_integrity); [ sound | intros ?]). sound.
  - unfold get_listings. apply (always_try_catch keeps_integrity).
    apply (always_bind keeps_integrity); [ sound | intros ?]. sound.
  - unfold get_listing. apply (always_try_catch keeps_integrity).
    apply (always_bind keeps_integrity); [ sound | intros [?|]]; sound.
  - unfold post_phone_unlock. apply (always_try_catch keeps_integrity).
    repeat (apply (always_bind keeps_integrity); [ sound | intros ?]). sound.
  - unfold post_payment_confirm. apply (always_try_catch keeps_integrity).
    apply (always_bind keeps_integrity); [ sound | intros [p|]]; [|sound].
    destruct (Payment.listingId p) as [lid|]; [|sound].
    destruct (_ && _); [|sound].
    apply (always_bind keeps_integrity); [ sound | intros _]. sound.
  - unfold get_admin_pending. apply (always_try_catch keeps_integrity).
    apply (always_bind keeps_integrity); [ sound | intros ?]. sound.
  - unfold get_admin_all. apply (always_try_catch keeps_integrity).
    apply (always_bind keeps_integrity); [ sound | intros ?]. sound.
  - unfold post_admin_approve. apply (always_try_catch keeps_integrity).
    apply (always_bind keeps_integrity); [ sound | intros [?|]]; sound.
  - unfold post_admin_reject. apply (always_try_catch keeps_integrity).
    apply (always_bind keeps_integrity); [ sound | intros [?|]]; sound.
  - unfold post_admin_approve_all. apply (always_try_catch keeps_integrity).
    apply (always_bind keeps_integrity); [ sound | intros ?]. sound.
Qed.

(** X14. Every database the routes can produce from the empty one satisfies
    the constraints of the schema: ids are unique in each table, every
    listing id a payment or a phone unlock carries is the id of a listing,
    no listing has the empty id, and no id of a listing or of a payment
    holds U+0000. *)
Theorem reachable_integrity (db : Store) : reachable db → integrity db.
Proof.
  induction 1 as [|g req db Hne _ _ IH]; [apply empty_integrity|].
  by apply serve_integrity.
Qed.

(** * Further properties of the storage layer and of the routes *)

(** ** Updates and the reads that follow them *)

Lemma with_listings_same (db : Store) : with_listings (listings db) db = db.
Proof. by destruct db. Qed.

Lemma with_payments_same (db : Store) : with_payments (payments db) db = db.
Proof. by destruct db. Qed.

Section update_lemmas.
Context {A : Type} (f : A → A) (P : A → Prop) `{∀ r, Decision (P r)}.

(** No row matches: nothing is written, nothing is returned. *)
Lemma update_none (rows : list A) :
  (∀ r, r ∈ rows → ¬ P r) → Sql.update f P rows = (rows, []).
Proof.
  intros Hno. unfold Sql.update. f_equal.
  - rewrite <- (list_fmap_id rows) at 2. apply list_fmap_ext.
    intros i r Hr%list_elem_of_lookup_2. rewrite decide_False; [done | by apply Hno].
  - by rewrite where_none.
Qed.

(** When [f] does not move a row in or out of [P], the rows that match
    after the update are the rows written. *)
Lemma update_where (rows : list A) :
  (∀ r, P (f r) ↔ P r) →
  filter P (Sql.update f P rows).1 = (Sql.update f P rows).2.
Proof.
  intros HP. unfold Sql.update. simpl.
  induction rows as [|r rows IH]; [done|].
  rewrite fmap_cons. destruct (decide (P r)) as [Hr|Hr].
  - rewrite filter_cons_True by (by apply HP).
    rewrite (filter_cons_True P r) by done. rewrite fmap_cons. by f_equal.
  - rewrite !filter_cons_False by done. done.
Qed.

Lemma update_twice (rows : list A) :
  (∀ r, P (f r) ↔ P r) → (∀ r, f (f r) = f r) →
  Sql.update f P (Sql.update f P rows).1 = Sql.update f P rows.
Proof.
  intros HP Hf. pose proof (update_where rows HP) as Hw.
  unfold Sql.update in *. simpl in *. f_equal.
  - rewrite <- list_fmap_compose.
    apply list_fmap_ext. intros i r _. simpl.
    destruct (decide (P r)) as [Hr|Hr].
    + rewrite decide_True by (by apply HP). apply Hf.
    + by rewrite decide_False.
  - rewrite Hw. rewrite <- list_fmap_compose.
    apply list_fmap_ext. intros i r _. apply Hf.
Qed.
End update_lemmas.

(** An update by key: the rows that have the key afterwards are the rows
    written; with the key in the table there is a row written, the first
    of them is returned and is in the table afterwards; with the key not
    in the table nothing is written. *)
Lemma update_by_key {A} (key : A → string) (f : A → A) (id : string) (rows : list A) :
  (∀ r, key (f r) = key r) →
  filter (λ r, key r = id) (Sql.update f (λ r, key r = id) rows).1
  = (Sql.update f (λ r, key r = id) rows).2
  ∧ (id ∈ key <$> rows →
     ∃ r0, r0 ∈ rows ∧ key r0 = id
           ∧ head (Sql.update f (λ r, key r = id) rows).2 = Some (f r0)
           ∧ f r0 ∈ (Sql.update f (λ r, key r = id) rows).1)
  ∧ (id ∉ key <$> rows → Sql.update f (λ r, key r = id) rows = (rows, [])).
Proof.
  intros Hkey. split; [|split].
  - apply update_where. intros r. by rewrite Hkey.
  - intros (r & Hid & Hr)%list_elem_of_fmap. symmetry in Hid.
    destruct (update_returning_head f (λ r, key r = id) rows r Hr Hid)
      as (r0 & Hr0 & Hr0id & Hhead).
    exists r0. split; [done|]. split; [done|]. split; [done|].
    unfold Sql.update. cbn [fst]. apply list_elem_of_fmap. exists r0.
    by rewrite decide_True.
  - intros Hid. apply update_none. intros r Hr Hr'. apply Hid.
    rewrite <- Hr'. by apply list_elem_of_fmap_2.
Qed.

(** X1. An update by id, of an id and a value without U+0000, returns the
    row it has rewritten: the row of that id with the column set to the
    value, which is in the table afterwards; or nothing, and it writes
    nothing, when no row has that id. Reading by the same id right after
    gives what the update returned. This holds for the four update
    functions. *)
Theorem get_after_update (id s : string) (db : Store) :
  Sql.text id → Sql.text s →
  (∃ r db', updateListingStatus id s db = Returned r db'
            ∧ getListing id db' = Returned r db'
            ∧ (id ∈ listingIds db →
               ∃ l, r = Some l ∧ Listing.id l = id ∧ Listing.status l = s
                    ∧ l ∈ listings db')
            ∧ (id ∉ listingIds db → r = None ∧ db' = db))
  ∧ (∃ r db', updateListingPaymentStatus id s db = Returned r db'
              ∧ getListing id db' = Returned r db'
              ∧ (id ∈ listingIds db →
                 ∃ l, r = Some l ∧ Listing.id l = id ∧ Listing.paymentStatus l = s
                      ∧ l ∈ listings db')
              ∧ (id ∉ listingIds db → r = None ∧ db' = db))
  ∧ (∃ r db', updatePaymentStatus id s db = Returned r db'
              ∧ getPayment id db' = Returned r db'
              ∧ (id ∈ Payment.id <$> payments db →
                 ∃ p, r = Some p ∧ Payment.id p = id ∧ Payment.status p = s
                      ∧ p ∈ payments db')
              ∧ (id ∉ Payment.id <$> payments db → r = None ∧ db' = db))
  ∧ (∃ r db', updatePhoneUnlockStatus id s db = Returned r db'
              ∧ getPhoneUnlock id db' = Returned r db'
              ∧ (id ∈ PhoneUnlock.id <$> phoneUnlocks db →
                 ∃ u, r = Some u ∧ PhoneUnlock.id u = id
                      ∧ PhoneUnlock.paymentStatus u = s ∧ u ∈ phoneUnlocks db')
              ∧ (id ∉ PhoneUnlock.id <$> phoneUnlocks db → r = None ∧ db' = db)).
Proof.
  intros Hi Hs. split; [|split; [|split]].
  - destruct (update_by_key Listing.id (Listing.set_status s) id (listings db))
      as (Hw & Hin & Hout); [done|].
    do 2 eexists. split; [by apply updateListingStatus_text|]. split; [|split].
    + unfold getListing, Sql.where_. rewrite Hi. cbn [listings with_listings].
      by rewrite Hw.
    + intros (r0 & Hr0 & Hid & Hhead & Hmem)%Hin. by exists (Listing.set_status s r0).
    + intros Hno%Hout. rewrite Hno. cbn [fst snd head]. by rewrite with_listings_same.
  - destruct (update_by_key Listing.id (Listing.set_paymentStatus s) id (listings db))
      as (Hw & Hin & Hout); [done|].
    do 2 eexists. split; [by apply updateListingPaymentStatus_text|]. split; [|split].
    + unfold getListing, Sql.where_. rewrite Hi. cbn [listings with_listings].
      by rewrite Hw.
    + intros (r0 & Hr0 & Hid & Hhead & Hmem)%Hin.
      by exists (Listing.set_paymentStatus s r0).
    + intros Hno%Hout. rewrite Hno. cbn [fst snd head]. by rewrite with_listings_same.
  - destruct (update_by_key Payment.id (Payment.set_status s) id (payments db))
      as (Hw & Hin & Hout); [done|].
    do 2 eexists. split; [by apply updatePaymentStatus_text|]. split; [|split].
    + unfold getPayment, Sql.where_. rewrite Hi. cbn [payments with_payments].
      by rewrite Hw.
    + intros (r0 & Hr0 & Hid & Hhead & Hmem)%Hin. by exists (Payment.set_status s r0).
    + intros Hno%Hout. rewrite Hno. cbn [fst snd head]. by rewrite with_payments_same.
  - destruct (update_by_key PhoneUnlock.id (PhoneUnlock.set_paymentStatus s) id
                (phoneUnlocks db)) as (Hw & Hin & Hout); [done|].
    do 2 eexists. split; [by apply updatePhoneUnlockStatus_text|]. split; [|split].
    + unfold getPhoneUnlock, Sql.where_. rewrite Hi.
      cbn [phoneUnlocks with_phoneUnlocks]. by rewrite Hw.
    + intros (r0 & Hr0 & Hid & Hhead & Hmem)%Hin.
      by exists (PhoneUnlock.set_paymentStatus s r0).
    + intros Hno%Hout. rewrite Hno. cbn [fst snd head]. by destruct db.
Qed.

Lemma get_after_update_witness :
  ∃ r db',
    updateListingStatus "listing-1" "approved" Sample.created = Returned r db'
    ∧ getListing "listing-1" db' = Returned r db'
    ∧ ∃ l, r = Some l ∧ Listing.status l = "approved".
Proof.
  destruct (get_after_update "listing-1" "approved" Sample.created eq_refl eq_refl)
    as ((r & db' & Hupdate & Hget & Hin & _) & _).
  exists r, db'. split; [exact Hupdate|]. split; [exact Hget|].
  destruct Hin as (l & Hr & _ & Hs & _); [left|]. by exists l.
Defined.

(** X2. Reading a row by the id it was created with gives the row created,
    in each of the three tables. *)
Theorem get_after_create (newId : string) (now : Z) (db : Store) :
  (∀ v l db', createListing newId now v db = Returned l db' →
              getListing newId db' = Returned (Some l) db')
  ∧ (∀ v p db', createPayment newId now v db = Returned p db' →
                getPayment newId db' = Returned (Some p) db')
  ∧ (∀ v u db', createPhoneUnlock newId now v db = Returned u db' →
                getPhoneUnlock newId db' = Returned (Some u) db').
Proof.
  split; [|split].
  - intros v l db'. unfold createListing.
    destruct (Sql.text_ok newId) eqn:Htext; [|discriminate].
    destruct (negb _); [discriminate|].
    destruct (negb _); [discriminate|]. destruct (decide _) as [|Hnew]; [discriminate|].
    intros [= <- <-]. unfold getListing, Sql.where_. rewrite Htext. simpl.
    rewrite filter_app, where_none; [by rewrite filter_cons_True|].
    intros r Hr Hid. apply Hnew. rewrite <- Hid. by apply list_elem_of_fmap_2.
  - intros v p db'. unfold createPayment.
    destruct (Sql.text_ok newId) eqn:Htext; [|discriminate].
    destruct (negb _); [discriminate|].
    destruct (negb _); [discriminate|]. destruct (decide _) as [|Hnew]; [discriminate|].
    destruct (Sql.references_null _ _); [|discriminate].
    intros [= <- <-]. unfold getPayment, Sql.where_. rewrite Htext. simpl.
    rewrite filter_app, where_none; [by rewrite filter_cons_True|].
    intros r Hr Hid. apply Hnew. rewrite <- Hid. by apply list_elem_of_fmap_2.
  - intros v u db'. unfold createPhoneUnlock.
    destruct (Sql.text_ok newId) eqn:Htext; [|discriminate]. cbn [negb].
    destruct (decide _) as [|Hnew]; [discriminate|].
    destruct (Sql.references _ _); [|discriminate].
    intros [= <- <-]. unfold getPhoneUnlock, Sql.where_. rewrite Htext. simpl.
    rewrite filter_app, where_none; [by rewrite filter_cons_True|].
    intros r Hr Hid. apply Hnew. rewrite <- Hid. by apply list_elem_of_fmap_2.
Qed.

Lemma get_after_create_witness :
  getListing "listing-1" Sample.created
  = Returned (Some (Sample.listing "pending" "pending")) Sample.created.
Proof.
  apply (proj1 (get_after_create "listing-1" 1000
                  (mkStore [] [Sample.payment "pending"] []))
           (Sample.validated "Kinshasa")).
  reflexivity.
Defined.

(** ** Routes that find nothing *)

(** X3. [GET /api/listings/:id] answers 404 for an id, free of U+0000,
    that no listing has, and 500 for an id with U+0000, which the
    database refuses; in a database that satisfies the constraints it
    answers 200 with the listing of that id, whatever its status and
    payment status. It writes nothing in any case. *)
Theorem get_listing_spec (g : Fresh) (id : string) (db : Store) :
  (Sql.text id → id ∉ listingIds db →
   serve g (GET_listing id) db = (Sent 404 (JError "Annonce non trouvée"), db))
  ∧ (¬ Sql.text id →
     serve g (GET_listing id) db
     = (Sent 500 (JError "Erreur lors de la récupération de l'annonce"), db))
  ∧ (∀ l, integrity db → l ∈ listings db → Listing.id l = id →
          serve g (GET_listing id) db = (Sent 200 (JListing l), db)).
Proof.
  split; [|split].
  - intros Ht Hid. unfold serve, get_listing, getListing, Sql.where_. run.
    rewrite Ht, where_none; [done|].
    intros r Hr Hr'. apply Hid. rewrite <- Hr'. by apply list_elem_of_fmap_2.
  - intros Ht. unfold serve, get_listing, getListing. run.
    unfold Sql.text in Ht. by destruct (Sql.text_ok id).
  - intros l Hdb Hl <-. unfold serve, get_listing, getListing, Sql.where_. run.
    rewrite (listings_text db Hdb (Listing.id l)) by (by apply list_elem_of_fmap_2).
    by rewrite (where_pkey Listing.id (listings db) l (listings_pkey db Hdb) Hl).
Qed.

Lemma get_listing_spec_witness :
  serve Sample.fresh (GET_listing "listing-1") Sample.created
  = (Sent 200 (JListing (Sample.listing "pending" "pending")), Sample.created).
Proof.
  apply (proj2 (proj2 (get_listing_spec Sample.fresh "listing-1" Sample.created))
           (Sample.listing "pending" "pending") created_integrity).
  - left.
  - reflexivity.
Defined.

(** X4. Approve and reject with an id that no listing has, and confirm with
    an id that no payment has, answer 404 when the id is free of U+0000
    and 500 when it is not, the database refusing it; they leave the
    database as it was. *)
Theorem not_found_writes_nothing (g : Fresh) (id : string) (db : Store) :
  (Sql.text id → id ∉ listingIds db →
   serve g (POST_admin_approve id) db = (Sent 404 (JError "Annonce non trouvée"), db)
   ∧ serve g (POST_admin_reject id) db = (Sent 404 (JError "Annonce non trouvée"), db))
  ∧ (Sql.text id → id ∉ Payment.id <$> payments db →
     serve g (POST_payment_confirm id) db = (Sent 404 (JError "Paiement non trouvé"), db))
  ∧ (¬ Sql.text id →
     serve g (POST_admin_approve id) db
     = (Sent 500 (JError "Erreur lors de l'approbation de l'annonce"), db)
     ∧ serve g (POST_admin_reject id) db
       = (Sent 500 (JError "Erreur lors du rejet de l'annonce"), db)
     ∧ serve g (POST_payment_confirm id) db
       = (Sent 500 (JError "Erreur lors de la confirmation du paiement"), db)).
Proof.
  split; [|split].
  - intros Ht Hid.
    assert (Hno : ∀ r, r ∈ listings db → ¬ Listing.id r = id).
    { intros r Hr Hr'. apply Hid. rewrite <- Hr'. by apply list_elem_of_fmap_2. }
    unfold serve, post_admin_approve, post_admin_reject, try_catch, mbind, M_bind.
    rewrite !updateListingStatus_text by done.
    rewrite !update_none by done. simpl. by rewrite with_listings_same.
  - intros Ht Hid.
    assert (Hno : ∀ r, r ∈ payments db → ¬ Payment.id r = id).
    { intros r Hr Hr'. apply Hid. rewrite <- Hr'. by apply list_elem_of_fmap_2. }
    unfold serve, post_payment_confirm, try_catch, mbind, M_bind.
    rewrite updatePaymentStatus_text by done.
    rewrite update_none by done. simpl. by rewrite with_payments_same.
  - intros Ht.
    unfold serve, post_admin_approve, post_admin_reject, post_payment_confirm,
      try_catch, mbind, M_bind.
    rewrite !updateListingStatus_refused, updatePaymentStatus_refused by tauto.
    done.
Qed.

Lemma not_found_writes_nothing_witness :
  serve Sample.fresh (POST_payment_confirm "payment-9") Sample.created
  = (Sent 404 (JError "Paiement non trouvé"), Sample.created).
Proof.
  apply (proj1 (proj2 (not_found_writes_nothing Sample.fresh "payment-9" Sample.created))).
  - reflexivity.
  - vm_compute. intros Hin. apply list_elem_of_singleton in Hin. discriminate.
Defined.

(** An id with U+0000 sent to the confirm route. *)
Example post_payment_confirm_nul :
  serve Sample.fresh (POST_payment_confirm Sample.nul) Sample.created
  = (Sent 500 (JError "Erreur lors de la confirmation du paiement"), Sample.created).
Proof. reflexivity. Qed.

(** ** Doing it twice *)

Lemma approved_not_awaiting (l : Listing.t) :
  ¬ awaits_approval
      (if decide (awaits_approval l) then Listing.set_status "approved" l else l).
Proof. case_decide as Hl; [|done]. intros [Hs _]. simpl in Hs. discriminate. Qed.

(** X5. A second approve-all right after the first approves nothing: it
    answers with count 0 and leaves the database as the first left it. *)
Theorem approve_all_twice (g : Fresh) (db : Store) :
  serve g POST_admin_approve_all (serve g POST_admin_approve_all db).2
  = (Sent 200 (JCount 0 "0 annonce(s) approuvée(s)"),
     (serve g POST_admin_approve_all db).2).
Proof.
  unfold serve, post_admin_approve_all, approveAllPendingListings,
    try_catch, mbind, M_bind.
  set (rows := (Sql.update (Listing.set_status "approved") awaits_approval
                  (listings db)).1).
  change (Sql.update (Listing.set_status "approved")
            (λ l, Listing.status l = "pending" ∧ Listing.paymentStatus l = "confirmed")
            (listings db))
    with (Sql.update (Listing.set_status "approved") awaits_approval (listings db)).
  rewrite (surjective_pairing (Sql.update _ _ (listings db))). fold rows. simpl.
  assert (Hno : ∀ r, r ∈ rows → ¬ awaits_approval r).
  { intros r (l & -> & _)%list_elem_of_fmap. apply approved_not_awaiting. }
  pose proof (update_none (Listing.set_status "approved") awaits_approval rows Hno) as Hn.
  unfold Sql.update, awaits_approval in Hn. injection Hn as Hmap Hret.
  rewrite Hmap, Hret. reflexivity.
Qed.

(** X6. Confirming the same payment a second time changes nothing and gives
    the same answer as the first time. *)
Theorem confirm_twice (g : Fresh) (id : string) (db : Store) :
  serve g (POST_payment_confirm id) (serve g (POST_payment_confirm id) db).2
  = serve g (POST_payment_confirm id) db.
Proof.
  unfold serve, post_payment_confirm, try_catch, mbind, M_bind, ok, mret, M_ret.
  destruct (decide (Sql.text id)) as [Hid|Hid].
  2:{ rewrite (updatePaymentStatus_refused id "confirmed" db) by tauto. cbn [snd].
      by rewrite updatePaymentStatus_refused by tauto. }
  rewrite (updatePaymentStatus_text id "confirmed" db) by done.
  pose proof (update_twice (Payment.set_status "confirmed") (λ p, Payment.id p = id)
                (payments db)) as H2.
  destruct (Sql.update (Payment.set_status "confirmed") (λ p, Payment.id p = id)
              (payments db)) as [rows ret] eqn:EU.
  cbn [fst snd] in *. specialize (H2 ltac:(done) ltac:(done)).
  assert (Hagain : ∀ db1, payments db1 = rows →
            updatePaymentStatus id "confirmed" db1
            = Returned (head ret) (with_payments rows db1)).
  { intros db1 Hdb1. rewrite updatePaymentStatus_text by done. by rewrite Hdb1, H2. }
  destruct (head ret) as [p|] eqn:Hh.
  2:{ cbn [snd]. by rewrite Hagain. }
  destruct (Payment.listingId p) as [lid|] eqn:Hlid.
  2:{ cbn [snd]. rewrite Hagain by done. by rewrite Hlid. }
  destruct (truthy (VString lid) && bool_decide (Payment.type p = "publish")) eqn:Hc.
  2:{ cbn [snd]. rewrite Hagain by done. by rewrite Hlid, Hc. }
  destruct (decide (Sql.text lid)) as [Ht|Ht].
  2:{ rewrite (updateListingPaymentStatus_refused lid "confirmed") by tauto.
      cbn [snd]. rewrite Hagain by done. rewrite Hlid, Hc.
      by rewrite updateListingPaymentStatus_refused by tauto. }
  rewrite (updateListingPaymentStatus_text lid "confirmed") by done.
  cbn [listings with_payments].
  pose proof (update_twice (Listing.set_paymentStatus "confirmed")
                (λ l, Listing.id l = lid) (listings db)) as HL.
  destruct (Sql.update (Listing.set_paymentStatus "confirmed")
              (λ l, Listing.id l = lid) (listings db)) as [lrows lret] eqn:EL.
  cbn [fst snd] in *. specialize (HL ltac:(done) ltac:(done)).
  cbn [snd]. rewrite Hagain by done. rewrite Hlid, Hc.
  rewrite updateListingPaymentStatus_text by done.
  cbn [listings payments with_listings with_payments]. by rewrite HL.
Qed.

(** ** The administrator's lists *)

(** X7. [GET /api/admin/listings/all] answers with every listing of the
    table, each once for each time it is there, newest first;
    [GET /api/admin/listings/pending] with those whose status is pending,
    paid for or not, newest first. Neither writes. *)
Theorem admin_lists_spec (g : Fresh) (db : Store) :
  (∃ rows, serve g GET_admin_all db = (Sent 200 (JListings rows), db)
           ∧ rows ≡ₚ listings db
           ∧ StronglySorted (Sql.desc Listing.createdAt) rows)
  ∧ (∃ rows, serve g GET_admin_pending db = (Sent 200 (JListings rows), db)
             ∧ rows ≡ₚ filter (λ l, Listing.status l = "pending") (listings db)
             ∧ StronglySorted (Sql.desc Listing.createdAt) rows
             ∧ ∀ L, L ∈ rows ↔ L ∈ listings db ∧ Listing.status L = "pending").
Proof.
  split; eexists; (split; [reflexivity|]).
  - split; [apply orderBy_desc_perm | apply orderBy_desc_sorted].
  - split; [apply orderBy_desc_perm|]. split; [apply orderBy_desc_sorted|].
    intros L. rewrite orderBy_desc_perm. unfold Sql.where_.
    rewrite list_elem_of_filter. tauto.
Qed.

(** X8. After approve-all, the pending list holds exactly the listings that
    were pending with a payment not confirmed: these are the ones
    approve-all passes over. *)
Theorem pending_after_approve_all (g : Fresh) (db : Store) :
  ∃ rows,
    serve g GET_admin_pending (serve g POST_admin_approve_all db).2
    = (Sent 200 (JListings rows), (serve g POST_admin_approve_all db).2)
    ∧ ∀ L, L ∈ rows ↔
           L ∈ listings db ∧ Listing.status L = "pending"
           ∧ Listing.paymentStatus L ≠ "confirmed".
Proof.
  eexists. split; [reflexivity|].
  intros L. rewrite orderBy_desc_perm. unfold Sql.where_.
  rewrite list_elem_of_filter. simpl. rewrite list_elem_of_fmap. split.
  - intros (Hs & l & -> & Hl). case_decide as Ha.
    + simpl in Hs. discriminate.
    + split; [done|]. split; [done|]. intros Hc. apply Ha. by split.
  - intros (HL & Hs & Hc). split; [done|]. exists L. split; [|done].
    rewrite decide_False; [done|]. by intros [_ ?].
Qed.

(** ** What the create route stores *)

(** [parseInt] skips the white space a number starts with, the no-break
    space U+00A0 (bytes 194, 160) and the byte order mark U+FEFF (bytes
    239, 187, 191) as well as the space, and stops at the first character
    that is no digit. *)
Example parseInt_white_space :
  parseInt (Some (String "194"%char (String "160"%char "3"))) = Num 3
  ∧ parseInt (Some (String "239"%char (String "187"%char (String "191"%char " 42 m2"))))
    = Num 42
  ∧ parseInt (Some "") = NaN
  ∧ parseInt None = NaN.
Proof. repeat split. Qed.

Lemma listingData_get (body : gmap string string) (paths : list string) :
  get (listingData body paths) "rooms" = VNumber (parseInt (body !! "rooms"))
  ∧ get (listingData body paths) "price" = VNumber (parseInt (body !! "price"))
  ∧ get (listingData body paths) "images" = VArray (VString <$> paths)
  ∧ get (listingData body paths) "deposit"
    = (if truthy (from_option VString VUndefined (body !! "deposit"))
       then VNumber (parseInt (body !! "deposit")) else VUndefined)
  ∧ ∀ k, k ∈ ["city"; "commune"; "neighborhood"; "propertyType";
              "transactionType"; "description"; "phone"] →
         get (listingData body paths) k = from_option VString VUndefined (body !! k).
Proof.
  unfold listingData, get. repeat split.
  - by rewrite !lookup_insert_ne, lookup_insert_eq by done.
  - by rewrite !lookup_insert_ne, lookup_insert_eq by done.
  - by rewrite lookup_insert_eq.
  - by rewrite lookup_insert_ne, lookup_insert_eq by done.
  - intros k Hk.
    assert (Hne : k ≠ "images" ∧ k ≠ "deposit" ∧ k ≠ "price" ∧ k ≠ "rooms").
    { repeat (apply elem_of_cons in Hk as [-> | Hk]; [done|]).
      by apply elem_of_nil in Hk. }
    destruct Hne as (? & ? & ? & ?).
    rewrite !lookup_insert_ne, lookup_fmap by done. by destruct (body !! k).
Qed.

Lemma insertListingSchema_deposit (o : jsobject) (v : InsertListing.t) :
  insertListingSchema o = inr v →
  Zod.integer_nullable [Zod.Key "deposit"] (get o "deposit")
  = inr (InsertListing.deposit v).
Proof.
  unfold insertListingSchema. cbv zeta. intros H.
  repeat match goal with
         | H : _ <*> _ = inr _ |- _ =>
             let g := fresh "g" in let x := fresh "x" in let Hx := fresh "Hx" in
             apply ap_inr in H as (g & x & H & Hx & ->)
         end.
  injection H as <-. simpl. done.
Qed.

#[export] Instance VString_inj : Inj (=) (=) VString.
Proof. by intros s1 s2 [=]. Qed.

(** What stands behind an answer 200 of the create route. *)
Lemma post_listings_sent_200 (g : Fresh) (files : option (list Multer.File))
    (body : gmap string string) (db db' : Store) (b : json) :
  post_listings g files body db = (Sent 200 b, db') →
  ∃ parts v,
    files = Some parts ∧ parts ≠ []
    ∧ insertListingSchema
        (listingData body ((λ file, "/uploads/" +:+ Multer.filename file) <$> parts))
      = inr v
    ∧ Sql.int4 (InsertListing.rooms v) = true
    ∧ Sql.int4 (InsertListing.price v) = true
    ∧ Sql.int4_null (InsertListing.deposit v) = true
    ∧ (uuid1 g ∉ listingIds db)
    ∧ (uuid2 g ∉ Payment.id <$> payments db)
    ∧ b = JListingPayment (listings_values (uuid1 g) (now1 g) v)
            (payments_values (uuid2 g) (now2 g)
               (InsertPayment.mk (Some (uuid1 g)) "publish" 1500))
    ∧ db' = mkStore (listings db ++ [listings_values (uuid1 g) (now1 g) v])
              (payments db
               ++ [payments_values (uuid2 g) (now2 g)
                     (InsertPayment.mk (Some (uuid1 g)) "publish" 1500)])
              (phoneUnlocks db)
    ∧ Forall Sql.text (InsertListing.texts v).
Proof.
  intros H. unfold post_listings, try_catch in H.
  destruct files as [[|f fs]|]; try discriminate.
  unfold mbind, M_bind, parse in H.
  destruct (insertListingSchema _) as [e|v] eqn:Hv; [discriminate|].
  unfold mret, M_ret, createListing in H.
  rewrite (uuid1_text g) in H.
  destruct (Sql.texts_ok _) eqn:Ht; [|discriminate].
  destruct (Sql.int4 (Listing.rooms _)) eqn:Hr; [|discriminate].
  destruct (Sql.int4 (Listing.price _)) eqn:Hp; [|discriminate].
  destruct (Sql.int4_null (Listing.deposit _)) eqn:Hd; [|discriminate].
  cbn [negb andb] in H. destruct (decide _) as [|Hid1]; [discriminate|].
  unfold createPayment in H. rewrite (uuid2_text g) in H.
  cbn [payments_values Payment.type InsertPayment.type] in H.
  change (Sql.text_ok "publish") with true in H. cbn [negb andb] in H.
  destruct (Sql.int4 (Payment.amount _)); [|discriminate].
  cbn [negb] in H. destruct (decide _) as [|Hid2]; [discriminate|].
  destruct (Sql.references_null _ _); [|discriminate].
  injection H as <- <-. exists (f :: fs), v.
  apply texts_ok_Forall in Ht. repeat split; done.
Qed.

(** X9. A listing the create route answers 200 with holds what was sent: the
    seven text fields as they were in the form, [rooms] and [price] as
    [parseInt] reads them, both between 1 and 2^31 - 1, the deposit as
    [parseInt] reads it or none when the field is missing or empty, and
    as images the paths [/uploads/<filename>] of the uploaded files, in
    the order of the upload. *)
Theorem post_listings_stores (g : Fresh) (parts : option (list Multer.File))
    (body : gmap string string) (db db' : Store) (l : Listing.t) (p : Payment.t) :
  serve g (POST_listings parts body) db = (Sent 200 (JListingPayment l p), db') →
  body !! "city" = Some (Listing.city l)
  ∧ body !! "commune" = Some (Listing.commune l)
  ∧ body !! "neighborhood" = Some (Listing.neighborhood l)
  ∧ body !! "propertyType" = Some (Listing.propertyType l)
  ∧ body !! "transactionType" = Some (Listing.transactionType l)
  ∧ body !! "description" = Some (Listing.description l)
  ∧ body !! "phone" = Some (Listing.phone l)
  ∧ parseInt (body !! "rooms") = Num (Listing.rooms l)
  ∧ 1 ≤ Listing.rooms l ≤ Zod.INT32_MAX
  ∧ parseInt (body !! "price") = Num (Listing.price l)
  ∧ 1 ≤ Listing.price l ≤ Zod.INT32_MAX
  ∧ (body !! "deposit" = None ∨ body !! "deposit" = Some "" → Listing.deposit l = None)
  ∧ (∀ s, body !! "deposit" = Some s → s ≠ "" →
          ∃ z, parseInt (Some s) = Num z ∧ Listing.deposit l = Some z)
  ∧ ∃ files, parts = Some files ∧ files ≠ []
             ∧ Listing.images l
               = (λ file, "/uploads/" +:+ Multer.filename file) <$> files.
Proof.
  unfold serve. destruct (Multer.array _ _ _) as [files|] eqn:Hm; [|discriminate].
  intros (fs & v & -> & Hne & Hv & Hr & Hp & _ & _ & _ & [= -> _] & _)%post_listings_sent_200.
  assert (parts = Some fs) as ->.
  { unfold Multer.array in Hm. destruct parts as [ps|]; [|discriminate].
    destruct (_ && _); by simplify_eq. }
  pose proof (insertListingSchema_deposit _ _ Hv) as Hdep.
  apply insertListingSchema_accepted in Hv
    as (Hc & Hco & Hn & [Hro Hr1] & Hpt & Htt & [Hpr Hp1] & Hd & Hph & [Hi Hi1]).
  destruct (listingData_get body ((λ file, "/uploads/" +:+ Multer.filename file) <$> fs))
    as (Grooms & Gprice & Gimages & Gdeposit & Gtext).
  assert (Htext : ∀ k s, k ∈ ["city"; "commune"; "neighborhood"; "propertyType";
                              "transactionType"; "description"; "phone"] →
            get (listingData body ((λ file, "/uploads/" +:+ Multer.filename file) <$> fs)) k
            = VString s → body !! k = Some s).
  { intros k s Hk Hg. rewrite (Gtext k Hk) in Hg.
    destruct (body !! k); simpl in Hg; by simplify_eq. }
  unfold Sql.int4 in Hr, Hp. apply andb_true_iff in Hr as [_ Hr%Z.leb_le].
  apply andb_true_iff in Hp as [_ Hp%Z.leb_le].
  rewrite Grooms in Hro. rewrite Gprice in Hpr. rewrite Gimages in Hi.
  rewrite Gdeposit in Hdep. simpl.
  repeat (split; [apply Htext; [set_solver | done]|]).
  split; [by simplify_eq|]. split; [lia|]. split; [by simplify_eq|]. split; [lia|].
  split; [|split].
  - intros [Hb | Hb]; rewrite Hb in Hdep; simpl in Hdep; by simplify_eq.
  - intros s Hb Hs. rewrite Hb in Hdep. simpl in Hdep.
    destruct (String.eqb_spec s ""); [done|]. simpl in Hdep.
    destruct (parseInt (Some s)) as [|z]; [discriminate|]. exists z. split; [done|].
    simpl in Hdep. destruct (z <? _); [discriminate|].
    destruct (_ <? z); [discriminate|]. by simplify_eq.
  - exists fs. split; [done|]. split; [done|].
    injection Hi as Hi. apply (list_fmap_eq_inj VString) in Hi; [done | apply _].
Qed.

Lemma post_listings_stores_witness :
  parseInt (Sample.form !! "rooms") = Num 3
  ∧ Listing.images (Sample.listing "pending" "pending")
    = ["/uploads/images-1730000000000-42.jpg"].
Proof.
  destruct (post_listings_stores Sample.fresh (Some [Sample.photo]) Sample.form
              Sample.empty Sample.created (Sample.listing "pending" "pending")
              (Sample.payment "pending"))
    as (_ & _ & _ & _ & _ & _ & _ & Hrooms & _ & _ & _ & _ & _ & fs & Hfs & _ & Himg).
  - vm_compute. reflexivity.
  - split; [exact Hrooms|]. injection Hfs as <-. exact Himg.
Defined.

(** ** Requests that are turned down *)

(** X10. With at least one file, a form whose [rooms] or [price] is missing,
    does not start with a number, or is read by [parseInt] as less than 1
    is answered 400 with the issues of the schema, and nothing is
    written. *)
Theorem post_listings_rejects_numbers (g : Fresh) (files : list Multer.File)
    (body : gmap string string) (db : Store) :
  files ≠ [] →
  (∀ z, parseInt (body !! "rooms") = Num z → z < 1)
  ∨ (∀ z, parseInt (body !! "price") = Num z → z < 1) →
  ∃ issues, issues ≠ []
            ∧ post_listings g (Some files) body db = (Sent 400 (JZodError issues), db).
Proof.
  intros Hne Hbad. destruct files as [|f fs]; [done|].
  unfold post_listings, try_catch, mbind, M_bind, parse.
  destruct (insertListingSchema _) as [e|v] eqn:Hv.
  { exists e. split; [by eapply insertListingSchema_raises | done]. }
  exfalso. apply insertListingSchema_accepted in Hv
    as (_ & _ & _ & [Hro Hr1] & _ & _ & [Hpr Hp1] & _).
  destruct (listingData_get body
              ((λ file, "/uploads/" +:+ Multer.filename file) <$> f :: fs))
    as (Grooms & Gprice & _).
  rewrite Grooms in Hro. rewrite Gprice in Hpr.
  injection Hro as Hro. injection Hpr as Hpr.
  destruct Hbad as [Hbad | Hbad].
  - specialize (Hbad _ Hro). lia.
  - specialize (Hbad _ Hpr). lia.
Qed.

Lemma post_listings_rejects_numbers_witness :
  ∃ issues, issues ≠ []
            ∧ post_listings Sample.fresh (Some [Sample.photo])
                (delete "rooms" Sample.form) Sample.empty
              = (Sent 400 (JZodError issues), Sample.empty).
Proof.
  apply (post_listings_rejects_numbers Sample.fresh [Sample.photo]
           (delete "rooms" Sample.form) Sample.empty).
  - discriminate.
  - left. intros z. vm_compute. discriminate.
Defined.

(** X12. The phone-unlock route answers 400 when the body has no string under
    [listingId], and 500 when that string is the id of no listing; in
    both cases nothing is written, neither the unlock nor a payment. *)
Theorem post_phone_unlock_errors (g : Fresh) (body : jsobject) (db : Store) :
  ((∀ s, get body "listingId" ≠ VString s) →
   ∃ issues, issues ≠ []
             ∧ serve g (POST_phone_unlock body) db = (Sent 400 (JZodError issues), db))
  ∧ (∀ s, get body "listingId" = VString s → s ∉ listingIds db →
          serve g (POST_phone_unlock body) db
          = (Sent 500 (JError "Erreur lors du déblocage du numéro"), db)).
Proof.
  split.
  - intros Hno. unfold serve, post_phone_unlock, try_catch, mbind, M_bind, parse,
      insertPhoneUnlockSchema.
    destruct (get body "listingId") as [| | | |s|] eqn:Hg;
      try (eexists; split; [|reflexivity]; discriminate).
    by destruct (Hno s).
  - intros s Hg Hs. unfold serve, post_phone_unlock, try_catch, mbind, M_bind, parse,
      insertPhoneUnlockSchema.
    rewrite Hg. unfold Zod.ap, Zod.string, mret, M_ret, createPhoneUnlock.
    rewrite (uuid1_text g). cbn [negb].
    destruct (decide _); [done|].
    unfold Sql.references. cbn [phoneUnlocks_values PhoneUnlock.listingId
                                 InsertPhoneUnlock.listingId].
    by rewrite bool_decide_eq_false_2.
Qed.

Lemma post_phone_unlock_errors_witness :
  ∃ issues, issues ≠ []
            ∧ serve Sample.fresh' (POST_phone_unlock ∅) Sample.created
              = (Sent 400 (JZodError issues), Sample.created).
Proof.
  apply (proj1 (post_phone_unlock_errors Sample.fresh' ∅ Sample.created)).
  intros s. vm_compute. discriminate.
Defined.

(** X13. The two inserts of the create route are not one transaction: when the
    listing has been inserted (its texts hold no U+0000, its numbers fit
    the integer columns, its id is new) and the insert of the payment
    fails (the id generated for it is taken), the route answers 500 and
    the listing stays in the table, pending, with no payment that refers
    to it added. *)
Theorem post_listings_orphan (g : Fresh) (f : Multer.File) (fs : list Multer.File)
    (body : gmap string string) (db : Store) (v : InsertListing.t) :
  insertListingSchema
    (listingData body ((λ file, "/uploads/" +:+ Multer.filename file) <$> f :: fs))
  = inr v →
  Forall Sql.text (InsertListing.texts v) →
  Sql.int4 (InsertListing.rooms v) = true →
  Sql.int4 (InsertListing.price v) = true →
  Sql.int4_null (InsertListing.deposit v) = true →
  uuid1 g ∉ listingIds db →
  uuid2 g ∈ Payment.id <$> payments db →
  post_listings g (Some (f :: fs)) body db
  = (Sent 500 (JError "Erreur lors de la création de l'annonce"),
     mkStore (listings db ++ [listings_values (uuid1 g) (now1 g) v]) (payments db)
       (phoneUnlocks db)).
Proof.
  intros Hv Ht Hr Hp Hd Hid1 Hid2. unfold post_listings, try_catch.
  erewrite bind_returned by (apply parse_returned, Hv).
  erewrite bind_returned
    by (apply createListing_returned;
        [apply uuid1_text | by apply texts_ok_Forall | done..]).
  unfold mbind, M_bind, createPayment. rewrite (uuid2_text g). simpl.
  by rewrite decide_True.
Qed.

Lemma post_listings_orphan_witness :
  post_listings Sample.fresh_taken (Some [Sample.photo]) Sample.form Sample.created
  = (Sent 500 (JError "Erreur lors de la création de l'annonce"),
     mkStore [Sample.listing "pending" "pending"; Sample.row "listing-2" 3000 "pending" "pending"]
       [Sample.payment "pending"] []).
Proof.
  apply (post_listings_orphan Sample.fresh_taken Sample.photo []
           Sample.form Sample.created (Sample.validated "Kinshasa")).
  - vm_compute. reflexivity.
  - repeat constructor.
  - reflexivity.
  - reflexivity.
  - reflexivity.
  - vm_compute. intros Hin. apply list_elem_of_singleton in Hin. discriminate.
  - vm_compute. left.
Defined.

(** X24. What the insert of the listing refuses, the create route answers
    with 500: a form that passes the schema but has U+0000 in one of its
    texts, or a number beyond the range of the integer columns, is not
    stored, and nothing is written. *)
Theorem post_listings_refused (g : Fresh) (f : Multer.File) (fs : list Multer.File)
    (body : gmap string string) (db : Store) (v : InsertListing.t) :
  insertListingSchema
    (listingData body ((λ file, "/uploads/" +:+ Multer.filename file) <$> f :: fs))
  = inr v →
  ¬ Forall Sql.text (InsertListing.texts v)
  ∨ Sql.int4 (InsertListing.rooms v) = false
  ∨ Sql.int4 (InsertListing.price v) = false
  ∨ Sql.int4_null (InsertListing.deposit v) = false →
  post_listings g (Some (f :: fs)) body db
  = (Sent 500 (JError "Erreur lors de la création de l'annonce"), db).
Proof.
  intros Hv Hbad. unfold post_listings, try_catch.
  erewrite bind_returned by (apply parse_returned, Hv).
  unfold mbind, M_bind, createListing.
  destruct (negb (Sql.text_ok _ && _)) eqn:Ht; [reflexivity|].
  apply negb_false_iff, andb_true_iff in Ht as [_ Ht%texts_ok_Forall].
  cbn [listings_values Listing.rooms Listing.price Listing.deposit].
  destruct Hbad as [Hbad | [-> | [-> | ->]]]; [done | ..];
    rewrite ?andb_false_r; reflexivity.
Qed.

Lemma post_listings_refused_witness :
  post_listings Sample.fresh (Some [Sample.photo]) (<["city" := Sample.nul]> Sample.form)
    Sample.empty
  = (Sent 500 (JError "Erreur lors de la création de l'annonce"), Sample.empty).
Proof.
  apply (post_listings_refused Sample.fresh Sample.photo []
           (<["city" := Sample.nul]> Sample.form) Sample.empty
           (Sample.validated Sample.nul)).
  - vm_compute. reflexivity.
  - left. intros Ht. apply Forall_cons in Ht as [Ht _]. discriminate.
Defined.

(** ** What holds of every row the routes can produce *)

Section hoare.
Context {A B : Type}.

Lemma hoare_bind (P : Store → Prop) (m : M A) (Q : A → Store → Prop)
    (k : A → M B) (Q' : B → Store → Prop) (E : Store → Prop) :
  hoare P m Q E → (∀ a, hoare (Q a) (k a) Q' E) → hoare P (m ≫= k) Q' E.
Proof.
  intros Hm Hk db HP. unfold mbind, M_bind. specialize (Hm db HP).
  destruct (m db) as [a db1|e db1]; [|done]. by apply Hk.
Qed.

Lemma hoare_mret (P : Store → Prop) (a : A) (Q : A → Store → Prop) (E : Store → Prop) :
  (∀ db, P db → Q a db) → hoare P (mret a) Q E.
Proof. intros HQ db HP. by apply HQ. Qed.

Lemma hoare_parse (P : Store → Prop) (schema : jsobject → Zod.result A) (o : jsobject) :
  hoare P (parse schema o) (λ v db, P db ∧ schema o = inr v) P.
Proof. intros db HP. unfold parse. by destruct (schema o). Qed.
End hoare.

Lemma hoare_try_catch (P I : Store → Prop) (body : M response)
    (handler : exn → response) (db : Store) :
  hoare P body (λ _, I) I → P db → I (try_catch body handler db).2.
Proof. intros Hb HP. unfold try_catch. specialize (Hb db HP). by destruct (body db). Qed.

(** A confirmed payment that stays in the table keeps the listing paid. *)
Lemma paid_mono (db db' : Store) (id : string) :
  (∀ p, Payment.status p = "confirmed" → p ∈ payments db → p ∈ payments db') →
  paid db id → paid db' id.
Proof.
  intros Hp (p & Hin & Hl & Ht & Hs). exists p. split; [by apply Hp | done].
Qed.

Lemma createListing_sound (newId : string) (now : Z) (v : InsertListing.t) :
  newId ≠ "" →
  1 ≤ InsertListing.rooms v → 1 ≤ InsertListing.price v → InsertListing.images v ≠ [] →
  hoare sound (createListing newId now v)
    (λ l db', sound db' ∧ Listing.id l = newId ∧ newId ∈ listingIds db') sound.
Proof.
  intros Hne Hrooms Hprice Himages db [Hint Hcon].
  pose proof (createListing_integrity newId now v Hne db) as Hkeep.
  unfold createListing in *.
  destruct (negb (Sql.text_ok _ && _)); [done|].
  destruct (negb _) eqn:Hrange; [done|].
  destruct (decide _) as [|Hnew]; [done|].
  apply negb_false_iff in Hrange.
  apply andb_true_iff in Hrange as [[Hr Hp]%andb_true_iff _].
  unfold Sql.int4 in Hr, Hp.
  apply andb_true_iff in Hr as [_ Hr%Z.leb_le].
  apply andb_true_iff in Hp as [_ Hp%Z.leb_le].
  simpl in Hr, Hp.
  split; [split; [by apply Hkeep|] | split; [done|]].
  2:{ unfold listingIds. simpl. rewrite fmap_app. apply elem_of_app. right. by left. }
  destruct Hcon as [Hl Hp' Hu Hpaid]. split; simpl; try done.
  - intros l [Hin | ->%list_elem_of_singleton]%elem_of_app; [by apply Hl|].
    repeat split; simpl; try done; by repeat constructor.
  - intros l [Hin | ->%list_elem_of_singleton]%elem_of_app; [|discriminate].
    intros Hc. by apply (paid_mono db), Hpaid.
Qed.

Lemma createPayment_sound (newId : string) (now : Z) (v : InsertPayment.t) :
  (InsertPayment.type v = "publish" ∧ InsertPayment.amount v = 1500
   ∧ is_Some (InsertPayment.listingId v))
  ∨ (InsertPayment.type v = "unlock" ∧ InsertPayment.amount v = 2500
     ∧ InsertPayment.listingId v = None) →
  hoare sound (createPayment newId now v) (λ _, sound) sound.
Proof.
  intros Hshape db [Hint Hcon].
  pose proof (createPayment_integrity newId now v db) as Hkeep.
  unfold createPayment in *.
  destruct (negb (Sql.text_ok _ && _)); [done|].
  destruct (negb _); [done|]. destruct (decide _) as [|Hnew]; [done|].
  destruct (Sql.references_null _ _); [|done].
  split; [by apply Hkeep|].
  destruct Hcon as [Hl Hp Hu Hpaid]. split; simpl; try done.
  - intros p [Hin | ->%list_elem_of_singleton]%elem_of_app; [by apply Hp|].
    split; [exact Hshape | simpl; by repeat constructor].
  - intros l Hin Hc. apply (paid_mono db); [|by apply Hpaid].
    intros p _ Hp0. simpl. apply elem_of_app. by left.
Qed.

Lemma createPhoneUnlock_sound (newId : string) (now : Z) (v : InsertPhoneUnlock.t) :
  hoare sound (createPhoneUnlock newId now v) (λ _, sound) sound.
Proof.
  intros db [Hint Hcon].
  pose proof (createPhoneUnlock_integrity newId now v db) as Hkeep.
  unfold createPhoneUnlock in *.
  destruct (negb _); [done|].
  destruct (decide _) as [|Hnew]; [done|].
  destruct (Sql.references _ _); [|done].
  split; [by apply Hkeep|].
  destruct Hcon as [Hl Hp Hu Hpaid]. split; simpl; try done.
  intros u [Hin | ->%list_elem_of_singleton]%elem_of_app; [by apply Hu | done].
Qed.

(** Writing a status among the three to listings leaves the rest true. *)
Lemma set_status_sound (P : Listing.t → Prop) `{∀ l, Decision (P l)}
    (status : string) (db : Store) :
  status ∈ ["pending"; "approved"; "rejected"] →
  sound db →
  sound (mkStore ((λ l, if decide (P l) then Listing.set_status status l else l)
                    <$> listings db) (payments db) (phoneUnlocks db)).
Proof.
  intros Hs [Hint Hcon]. split.
  { apply (integrity_listings _ db); [|done].
    by apply (update_keys Listing.id (Listing.set_status status) P). }
  destruct Hcon as [Hl Hp Hu Hpaid]. split; simpl; try done.
  - intros l' (l & -> & Hin)%list_elem_of_fmap.
    destruct (Hl l Hin) as (? & ? & ? & ? & ? & ?).
    case_decide; repeat split; simpl; first [done | lia].
  - intros l' (l & -> & Hin)%list_elem_of_fmap.
    assert (Listing.paymentStatus (if decide (P l) then Listing.set_status status l else l)
            = Listing.paymentStatus l) as -> by (by case_decide).
    assert (Listing.id (if decide (P l) then Listing.set_status status l else l)
            = Listing.id l) as -> by (by case_decide).
    intros Hc. by apply (paid_mono db), Hpaid.
Qed.

(** The database the confirm route leaves. *)
Lemma post_payment_confirm_db (id : string) (db : Store) :
  (post_payment_confirm id db).2
  = mkStore (cascade id (payments db) <$> listings db) (confirm id <$> payments db)
      (phoneUnlocks db).
Proof.
  assert (Hsame : ∀ (f : Listing.t → Listing.t) (h : Payment.t → Payment.t),
            (∀ l, f l = l) → (∀ p, h p = p) →
            db = mkStore (f <$> listings db) (h <$> payments db) (phoneUnlocks db)).
  { intros f h Hf Hh. destruct db as [ls ps us]. cbn [listings payments phoneUnlocks].
    f_equal.
    - rewrite <- (list_fmap_id ls) at 1. apply list_fmap_ext. by intros i l _.
    - rewrite <- (list_fmap_id ps) at 1. apply list_fmap_ext. by intros i p _. }
  unfold post_payment_confirm, try_catch, mbind, M_bind, ok, mret, M_ret.
  destruct (decide (Sql.text id)) as [Hid|Hid].
  2:{ rewrite updatePaymentStatus_refused by tauto. cbn [snd]. apply Hsame.
      - intros l. unfold cascade. unfold Sql.text in Hid.
        destruct (head _) as [p|]; [|done]. destruct (Payment.listingId p); [|done].
        by destruct (Sql.text_ok id).
      - intros p. unfold confirm. rewrite decide_False; [done | tauto]. }
  rewrite updatePaymentStatus_text by done.
  assert (Hpay : (Sql.update (Payment.set_status "confirmed") (λ p, Payment.id p = id)
                    (payments db)).1 = confirm id <$> payments db).
  { unfold Sql.update. cbn [fst]. apply list_fmap_ext. intros i p _.
    unfold confirm. repeat case_decide; tauto. }
  rewrite Hpay. unfold Sql.update at 1. cbn [snd]. unfold cascade. rewrite Hid.
  destruct (filter (λ p, Payment.id p = id) (payments db)) as [|p rest];
    cbn [fmap list_fmap head snd Payment.listingId Payment.type Payment.set_status].
  { unfold with_payments. cbn. by rewrite list_fmap_id. }
  destruct (Payment.listingId p) as [lid|].
  2:{ unfold with_payments. cbn. by rewrite list_fmap_id. }
  cbn [andb].
  destruct (decide (Sql.text lid)) as [Hlid|Hlid].
  - rewrite Hlid. cbn [andb]. destruct (_ && _).
    + rewrite updateListingPaymentStatus_text by done. reflexivity.
    + unfold with_payments. cbn. by rewrite list_fmap_id.
  - assert (Sql.text_ok lid = false) as ->
      by (unfold Sql.text in Hlid; by destruct (Sql.text_ok lid)).
    cbn [andb]. destruct (_ && _).
    + rewrite updateListingPaymentStatus_refused by tauto.
      unfold with_payments. cbn. by rewrite list_fmap_id.
    + unfold with_payments. cbn. by rewrite list_fmap_id.
Qed.

Lemma cascade_cases (id : string) (rows : list Payment.t) :
  cascade id rows = (λ l, l)
  ∨ ∃ p lid, p ∈ rows ∧ Payment.id p = id ∧ Sql.text id
             ∧ Payment.listingId p = Some lid ∧ Payment.type p = "publish"
             ∧ cascade id rows
               = λ l, if decide (Listing.id l = lid)
                      then Listing.set_paymentStatus "confirmed" l else l.
Proof.
  unfold cascade. destruct (head _) as [p|] eqn:Hh; [|by left].
  destruct (Payment.listingId p) as [lid|] eqn:Hl; [|by left].
  destruct (Sql.text_ok id) eqn:Hid; [|by left].
  destruct (Sql.text_ok lid); [|by left]. cbn [andb].
  destruct (truthy _); [|by left]. cbn [andb].
  case_bool_decide as Ht; [|by left].
  right. exists p, lid.
  apply head_Some_elem_of, list_elem_of_filter in Hh as [Hp Hin]. done.
Qed.

Lemma confirmed_stays (id : string) (p : Payment.t) :
  Payment.status p = "confirmed" → confirm id p = p.
Proof. intros Hs. unfold confirm. case_decide; [|done]. destruct p. simpl in *. by subst. Qed.

Lemma post_payment_confirm_sound (id : string) (db : Store) :
  sound db → sound (post_payment_confirm id db).2.
Proof.
  intros [Hint Hcon]. split.
  { apply (serve_integrity Sample.fresh (POST_payment_confirm id) db);
      [discriminate | done]. }
  destruct Hcon as [Hl Hp Hu Hpaid]. rewrite post_payment_confirm_db.
  assert (Hmono : ∀ db' x, payments db' = confirm id <$> payments db →
                           paid db x → paid db' x).
  { intros db' x Hdb'. apply paid_mono. intros p Hs Hin. rewrite Hdb'.
    apply list_elem_of_fmap. exists p. by rewrite confirmed_stays. }
  split; cbn [listings payments phoneUnlocks]; [| |done|].
  - intros l' (l & -> & Hin)%list_elem_of_fmap.
    destruct (Hl l Hin) as (? & ? & ? & ? & ? & ?).
    destruct (cascade_cases id (payments db)) as [-> | (p & lid & _ & _ & _ & _ & _ & ->)];
      [done|].
    case_decide; repeat split; simpl; first [done | lia | by repeat constructor].
  - intros p' (p & -> & Hin)%list_elem_of_fmap. destruct (Hp p Hin) as [Hshape Hs].
    unfold confirm. case_decide; [|done].
    split; [exact Hshape | simpl; by repeat constructor].
  - intros l' (l & -> & Hin)%list_elem_of_fmap.
    destruct (cascade_cases id (payments db))
      as [-> | (p & lid & Hpin & Hpid & Htid & Hplid & Hpt & ->)].
    { intros Hc. by apply Hmono, Hpaid. }
    case_decide as Hd; [|intros Hc; by apply Hmono, Hpaid].
    intros _. cbn [Listing.id Listing.set_paymentStatus].
    exists (Payment.set_status "confirmed" p). split; [|by rewrite Hd].
    cbn [payments]. apply list_elem_of_fmap. exists p. split; [|done].
    unfold confirm. by rewrite decide_True.
Qed.

Lemma hoare_pure {A} (φ : Prop) (P : Store → Prop) (m : M A)
    (Q : A → Store → Prop) (E : Store → Prop) :
  (φ → hoare P m Q E) → hoare (λ db, P db ∧ φ) m Q E.
Proof. intros Hm db [HP Hφ]. by apply Hm. Qed.

Lemma hoare_pre {A} (P P' : Store → Prop) (m : M A)
    (Q : A → Store → Prop) (E : Store → Prop) :
  (∀ db, P' db → P db) → hoare P m Q E → hoare P' m Q E.
Proof. intros HP Hm db HP'. by apply Hm, HP. Qed.

Lemma post_listings_sound (g : Fresh) (files : option (list Multer.File))
    (body : gmap string string) (db : Store) :
  uuid1 g ≠ "" → sound db → sound (post_listings g files body db).2.
Proof.
  intros Hne. unfold post_listings. apply hoare_try_catch.
  destruct files as [[|f fs]|]; try (by apply hoare_mret).
  eapply hoare_bind; [apply hoare_parse|]. intros v. apply hoare_pure. intros Hv.
  apply insertListingSchema_accepted in Hv
    as (_ & _ & _ & [_ Hr] & _ & _ & [_ Hp] & _ & _ & [_ Hi]).
  eapply hoare_bind.
  { apply createListing_sound; [done | done | done |].
    destruct (InsertListing.images v); [simpl in Hi; lia | done]. }
  intros listing. eapply hoare_bind.
  { eapply hoare_pre; [|apply createPayment_sound].
    - by intros db' [? _].
    - left. by repeat split. }
  intros payment. by apply hoare_mret.
Qed.

Lemma post_phone_unlock_sound (g : Fresh) (body : jsobject) (db : Store) :
  sound db → sound (post_phone_unlock g body db).2.
Proof.
  unfold post_phone_unlock. apply hoare_try_catch.
  eapply hoare_bind; [apply hoare_parse|]. intros v. apply hoare_pure. intros _.
  eapply hoare_bind; [apply createPhoneUnlock_sound|]. intros unlock.
  eapply hoare_bind; [apply createPayment_sound; right; by repeat split|].
  intros payment. by apply hoare_mret.
Qed.


Lemma serve_sound (g : Fresh) (req : request) (db : Store) :
  uuid1 g ≠ "" → sound db → sound (serve g req db).2.
Proof.
  intros Hne Hdb. destruct req as [parts body| |lid0|ubody|pid| | |aid|rid|]; unfold serve.
  - destruct (Multer.array _ _ _); [by apply post_listings_sound | done].
  - done.
  - unfold get_listing, try_catch, getListing, mbind, M_bind.
    destruct (Sql.text_ok lid0); [by destruct (head _) | done].
  - by apply post_phone_unlock_sound.
  - by apply post_payment_confirm_sound.
  - done.
  - done.
  - rewrite post_admin_approve_db. apply set_status_sound; (done || by repeat constructor).
  - rewrite post_admin_reject_db. apply set_status_sound; (done || by repeat constructor).
  - unfold post_admin_approve_all, try_catch, approveAllPendingListings, mbind, M_bind.
    unfold Sql.update. cbn [snd]. unfold with_listings.
    apply (set_status_sound awaits_approval); (done || by repeat constructor).
Qed.

Lemma empty_sound : sound (mkStore [] [] []).
Proof.
  split; [apply empty_integrity|].
  split; simpl; intros ? Hin; by apply elem_of_nil in Hin.
Qed.

Lemma reachable_sound (db : Store) : reachable db → sound db.
Proof.
  induction 1 as [|g req db Hne _ _ IH]; [apply empty_sound | by apply serve_sound].
Qed.

Lemma created_reachable : reachable Sample.created.
Proof.
  assert (H : (serve Sample.fresh (POST_listings (Some [Sample.photo]) Sample.form)
                 (mkStore [] [] [])).2 = Sample.created) by (vm_compute; reflexivity).
  rewrite <- H. apply reachable_serve; [discriminate | discriminate | constructor].
Qed.

Lemma confirmed_reachable : reachable Sample.confirmed.
Proof.
  assert (H : (serve Sample.fresh (POST_payment_confirm "payment-1") Sample.created).2
              = Sample.confirmed) by (vm_compute; reflexivity).
  rewrite <- H.
  apply reachable_serve; [discriminate | discriminate | apply created_reachable].
Qed.

Lemma approved_reachable : reachable Sample.approved.
Proof.
  assert (H : (serve Sample.fresh (POST_admin_approve "listing-1") Sample.confirmed).2
              = Sample.approved) by (vm_compute; reflexivity).
  rewrite <- H.
  apply reachable_serve; [discriminate | discriminate | apply confirmed_reachable].
Qed.

Lemma reachable_integrity_witness : integrity Sample.approved.
Proof. apply (reachable_integrity Sample.approved). apply approved_reachable. Defined.

(** X15. Every listing the routes can have put in the table has [rooms] and
    [price] between 1 and 2^31 - 1 and at least one image, is not
    featured, and has a status among pending, approved, rejected and a
    payment status among pending, confirmed. *)
Theorem reachable_listings_valid (db : Store) (l : Listing.t) :
  reachable db → l ∈ listings db → valid_listing l.
Proof. intros [_ Hcon]%reachable_sound. apply (listings_valid db Hcon). Qed.

Lemma reachable_listings_valid_witness :
  valid_listing (Sample.listing "approved" "confirmed").
Proof.
  apply (reachable_listings_valid Sample.approved); [apply approved_reachable | left].
Defined.

(** X16. Every payment the routes can have put in the table is a publish
    payment of 1500 with a listing id or an unlock payment of 2500
    without one, and is pending or confirmed. *)
Theorem reachable_payments_shape (db : Store) (p : Payment.t) :
  reachable db → p ∈ payments db → route_payment p.
Proof. intros [_ Hcon]%reachable_sound. apply (payments_valid db Hcon). Qed.

Lemma reachable_payments_shape_witness : route_payment (Sample.payment "confirmed").
Proof.
  apply (reachable_payments_shape Sample.approved); [apply approved_reachable | left].
Defined.

(** X17. No route calls [updatePhoneUnlockStatus]: every phone unlock the
    routes can have put in the table is still pending. *)
Theorem reachable_unlocks_pending (db : Store) (u : PhoneUnlock.t) :
  reachable db → u ∈ phoneUnlocks db → PhoneUnlock.paymentStatus u = "pending".
Proof. intros [_ Hcon]%reachable_sound. apply (phoneUnlocks_pending db Hcon). Qed.

Lemma unlocked_reachable :
  reachable (serve Sample.fresh' (POST_phone_unlock {["listingId" := VString "listing-1"]})
               Sample.created).2.
Proof. apply reachable_serve; [discriminate | discriminate | apply created_reachable]. Qed.

Lemma reachable_unlocks_pending_witness :
  PhoneUnlock.paymentStatus (PhoneUnlock.mk "unlock-1" "listing-1" "pending" 2000)
  = "pending".
Proof.
  apply (reachable_unlocks_pending _ _ unlocked_reachable). vm_compute. left.
Defined.

(** X18. In every database the routes can produce, a listing whose payment
    status is confirmed has a confirmed publish payment in the table of
    payments: the payment status of a listing is never confirmed without
    a payment. *)
Theorem reachable_paid (db : Store) (l : Listing.t) :
  reachable db → l ∈ listings db →
  Listing.paymentStatus l = "confirmed" → paid db (Listing.id l).
Proof. intros [_ Hcon]%reachable_sound. apply (listings_paid db Hcon). Qed.

Lemma reachable_paid_witness : paid Sample.confirmed "listing-1".
Proof.
  apply (reachable_paid Sample.confirmed (Sample.listing "pending" "confirmed"));
    [apply confirmed_reachable | left | reflexivity].
Defined.

(** X19. Every listing of the public list, in a database the routes can
    produce, has been approved and has a confirmed publish payment; and
    it is a valid listing in the sense above. *)
Theorem public_listings_paid (g : Fresh) (db : Store) :
  reachable db →
  ∃ rows, serve g GET_listings db = (Sent 200 (JListings rows), db)
          ∧ ∀ l, l ∈ rows →
                 Listing.status l = "approved" ∧ paid db (Listing.id l)
                 ∧ valid_listing l.
Proof.
  intros [_ Hcon]%reachable_sound. eexists. split; [reflexivity|].
  intros l. rewrite orderBy_desc_perm. unfold Sql.where_.
  rewrite list_elem_of_filter. intros [[Hs Hp] Hin].
  split; [done|]. split; [by apply (listings_paid db Hcon) | by apply (listings_valid db Hcon)].
Qed.

Lemma public_listings_paid_witness :
  ∃ rows, serve Sample.fresh GET_listings Sample.approved
          = (Sent 200 (JListings rows), Sample.approved)
          ∧ ∀ l, l ∈ rows →
                 Listing.status l = "approved" ∧ paid Sample.approved (Listing.id l)
                 ∧ valid_listing l.
Proof. apply (public_listings_paid Sample.fresh Sample.approved approved_reachable). Defined.

(** ** How the routes compose *)

(** X20. Confirming a payment and approving or rejecting a listing can be
    done in either order: the database at the end is the same. *)
Theorem confirm_commutes_with_moderation (g : Fresh) (payment listing : string)
    (db : Store) :
  (serve g (POST_admin_approve listing) (serve g (POST_payment_confirm payment) db).2).2
  = (serve g (POST_payment_confirm payment) (serve g (POST_admin_approve listing) db).2).2
  ∧ (serve g (POST_admin_reject listing) (serve g (POST_payment_confirm payment) db).2).2
    = (serve g (POST_payment_confirm payment)
         (serve g (POST_admin_reject listing) db).2).2.
Proof.
  assert (Hcomm : ∀ status,
    (λ l, if decide (Listing.id l = listing ∧ Sql.text listing)
          then Listing.set_status status l else l)
      <$> (cascade payment (payments db) <$> listings db)
    = cascade payment (payments db)
        <$> ((λ l, if decide (Listing.id l = listing ∧ Sql.text listing)
                   then Listing.set_status status l else l) <$> listings db)).
  { intros status. rewrite <- !list_fmap_compose. apply list_fmap_ext. intros i l _.
    destruct (cascade_cases payment (payments db))
      as [-> | (p & lid & _ & _ & _ & _ & _ & ->)]; [done|].
    simpl. repeat case_decide; done. }
  split; unfold serve.
  - rewrite !post_payment_confirm_db, !post_admin_approve_db. simpl. by rewrite Hcomm.
  - rewrite !post_payment_confirm_db, !post_admin_reject_db. simpl. by rewrite Hcomm.
Qed.

(** X21. From creation to publication: once the create route has answered 200
    with a listing and its payment, the listing is in the public list
    after that payment has been confirmed and the listing approved, with
    these two columns changed and no other; it is in the public list
    neither before the confirmation nor before the approval. *)
Theorem publish_workflow (g g' : Fresh) (parts : option (list Multer.File))
    (body : gmap string string) (db db1 : Store) (l : Listing.t) (p : Payment.t) :
  uuid1 g ≠ "" →
  serve g (POST_listings parts body) db = (Sent 200 (JListingPayment l p), db1) →
  (∀ rows x, getApprovedListings db1 = Returned rows db1 → x ∈ rows →
             Listing.id x ≠ Listing.id l)
  ∧ (∀ rows x,
       getApprovedListings (serve g' (POST_payment_confirm (Payment.id p)) db1).2
       = Returned rows (serve g' (POST_payment_confirm (Payment.id p)) db1).2 →
       x ∈ rows → Listing.id x ≠ Listing.id l)
  ∧ ∃ rows,
      serve g' GET_listings
        (serve g' (POST_admin_approve (Listing.id l))
           (serve g' (POST_payment_confirm (Payment.id p)) db1).2).2
      = (Sent 200 (JListings rows),
         (serve g' (POST_admin_approve (Listing.id l))
            (serve g' (POST_payment_confirm (Payment.id p)) db1).2).2)
      ∧ Listing.set_status "approved" (Listing.set_paymentStatus "confirmed" l) ∈ rows.
Proof.
  intros Hne Hserve. unfold serve in Hserve.
  destruct (Multer.array _ _ _) as [files|]; [|discriminate].
  apply post_listings_sent_200 in Hserve
    as (fs & v & _ & _ & _ & _ & _ & _ & Hid1 & Hid2 & [= -> ->] & -> & _).
  set (l := listings_values (uuid1 g) (now1 g) v).
  set (p := payments_values (uuid2 g) (now2 g)
              (InsertPayment.mk (Some (uuid1 g)) "publish" 1500)).
  set (db1 := mkStore (listings db ++ [l]) (payments db ++ [p]) (phoneUnlocks db)).
  assert (Hold : ∀ y, y ∈ listings db → Listing.id y ≠ uuid1 g).
  { intros y Hy Heq. apply Hid1. rewrite <- Heq. by apply list_elem_of_fmap_2. }
  assert (Hcas : cascade (uuid2 g) (payments db1)
                 = λ x, if decide (Listing.id x = uuid1 g)
                        then Listing.set_paymentStatus "confirmed" x else x).
  { unfold cascade, db1. cbn [payments]. rewrite filter_app, where_none.
    - rewrite filter_cons_True by done. cbn [app head p payments_values
        Payment.listingId Payment.type InsertPayment.listingId InsertPayment.type].
      rewrite (uuid1_text g), (uuid2_text g). cbn [andb].
      assert (truthy (VString (uuid1 g)) = true) as ->.
      { simpl. by destruct (String.eqb_spec (uuid1 g) ""). }
      by rewrite bool_decide_eq_true_2.
    - intros q Hq Heq. apply Hid2. rewrite <- Heq. by apply list_elem_of_fmap_2. }
  unfold serve. cbn [p payments_values Payment.id l listings_values Listing.id].
  split; [|split].
  - intros rows x [= <-]. rewrite orderBy_desc_perm. unfold Sql.where_.
    rewrite list_elem_of_filter. cbn [db1 listings].
    intros [[Hs _] [Hx | ->%list_elem_of_singleton]%elem_of_app]; [by apply Hold|].
    simpl in Hs. discriminate.
  - rewrite post_payment_confirm_db, Hcas.
    intros rows x [= <-]. rewrite orderBy_desc_perm. unfold Sql.where_.
    rewrite list_elem_of_filter. cbn [db1 listings].
    intros [[Hs _] (y & -> & Hy)%list_elem_of_fmap].
    apply elem_of_app in Hy as [Hy | ->%list_elem_of_singleton].
    + case_decide; simpl; by apply Hold.
    + rewrite decide_True in Hs by done. simpl in Hs. discriminate.
  - eexists. split; [reflexivity|].
    unfold getApprovedListings. rewrite orderBy_desc_perm. unfold Sql.where_.
    apply list_elem_of_filter. split; [done|].
    rewrite post_admin_approve_db, post_payment_confirm_db, Hcas. cbn [db1 listings].
    apply list_elem_of_fmap. exists (Listing.set_paymentStatus "confirmed" l).
    split; [rewrite decide_True; [done | split; [done | apply uuid1_text]]|].
    apply list_elem_of_fmap. exists l. split; [by rewrite decide_True|].
    apply elem_of_app. right. by left.
Qed.

Lemma publish_workflow_witness :
  ∃ rows,
    serve Sample.fresh' GET_listings
      (serve Sample.fresh' (POST_admin_approve "listing-1")
         (serve Sample.fresh' (POST_payment_confirm "payment-1") Sample.created).2).2
    = (Sent 200 (JListings rows),
       (serve Sample.fresh' (POST_admin_approve "listing-1")
          (serve Sample.fresh' (POST_payment_confirm "payment-1") Sample.created).2).2)
    ∧ Sample.listing "approved" "confirmed" ∈ rows.
Proof.
  destruct (publish_workflow Sample.fresh Sample.fresh' (Some [Sample.photo]) Sample.form
              Sample.empty Sample.created (Sample.listing "pending" "pending")
              (Sample.payment "pending"))
    as (_ & _ & Hrows).
  - discriminate.
  - vm_compute. reflexivity.
  - exact Hrows.
Defined.

(** ** What the creating routes leave alone *)

Section public.
Context (db0 : Store).

Lemma createListing_public newId now v :
  hoare (same_public db0) (createListing newId now v) (λ _, same_public db0) (same_public db0).
Proof.
  intros db Hdb. unfold createListing.
  destruct (negb _); [done|].
  destruct (negb _); [done|]. destruct (decide _); [done|].
  unfold same_public in *. simpl. rewrite filter_app, Hdb.
  rewrite filter_cons_False; [by rewrite app_nil_r|].
  intros [Hs _]. simpl in Hs. discriminate.
Qed.

Lemma createPayment_public newId now v :
  hoare (same_public db0) (createPayment newId now v) (λ _, same_public db0) (same_public db0).
Proof.
  intros db Hdb. unfold createPayment.
  destruct (negb _); [done|].
  destruct (negb _); [done|]. destruct (decide _); [done|].
  by destruct (Sql.references_null _ _).
Qed.

Lemma createPhoneUnlock_public newId now v :
  hoare (same_public db0) (createPhoneUnlock newId now v) (λ _, same_public db0) (same_public db0).
Proof.
  intros db Hdb. unfold createPhoneUnlock.
  destruct (negb _); [done|].
  destruct (decide _); [done|]. by destruct (Sql.references _ _).
Qed.

Lemma post_listings_public g files body :
  filter visible (listings (post_listings g files body db0).2)
  = filter visible (listings db0).
Proof.
  unfold post_listings.
  apply (hoare_try_catch (same_public db0) (same_public db0)); [|done].
  destruct files as [[|f fs]|]; try (by apply hoare_mret).
  eapply hoare_bind; [apply hoare_parse|]. intros v. apply hoare_pure. intros _.
  eapply hoare_bind; [apply createListing_public|]. intros listing.
  eapply hoare_bind; [apply createPayment_public|]. intros payment.
  by apply hoare_mret.
Qed.

Lemma post_phone_unlock_public g body :
  filter visible (listings (post_phone_unlock g body db0).2)
  = filter visible (listings db0).
Proof.
  unfold post_phone_unlock.
  apply (hoare_try_catch (same_public db0) (same_public db0)); [|done].
  eapply hoare_bind; [apply hoare_parse|]. intros v. apply hoare_pure. intros _.
  eapply hoare_bind; [apply createPhoneUnlock_public|]. intros unlock.
  eapply hoare_bind; [apply createPayment_public|]. intros payment.
  by apply hoare_mret.
Qed.
End public.

(** X22. Creating a listing or asking for a phone unlock never changes what
    the public list answers, whether the request succeeds or fails. *)
Theorem public_list_unchanged (g g' : Fresh) (db : Store) :
  (∀ parts body,
     (serve g' GET_listings (serve g (POST_listings parts body) db).2).1
     = (serve g' GET_listings db).1)
  ∧ (∀ body,
       (serve g' GET_listings (serve g (POST_phone_unlock body) db).2).1
       = (serve g' GET_listings db).1).
Proof.
  assert (Hlist : ∀ db1, filter visible (listings db1) = filter visible (listings db) →
                         (serve g' GET_listings db1).1 = (serve g' GET_listings db).1).
  { intros db1 Hv. unfold serve, get_listings, try_catch, mbind, M_bind,
      getApprovedListings, Sql.where_. simpl. unfold visible in Hv. by rewrite Hv. }
  split.
  - intros parts body. apply Hlist. unfold serve.
    destruct (Multer.array _ _ _); [apply post_listings_public | done].
  - intros body. apply Hlist. apply post_phone_unlock_public.
Qed.

Section extends.
Context (db0 : Store).

Lemma extends_refl : extends db0 db0.
Proof. by repeat split. Qed.

Lemma createListing_extends newId now v :
  hoare (extends db0) (createListing newId now v) (λ _, extends db0) (extends db0).
Proof.
  intros db (Hl & Hp & Hu). unfold createListing.
  destruct (negb _); [done|].
  destruct (negb _); [done|]. destruct (decide _); [done|].
  split; [|done]. simpl. by apply prefix_app_r.
Qed.

Lemma createPayment_extends newId now v :
  hoare (extends db0) (createPayment newId now v) (λ _, extends db0) (extends db0).
Proof.
  intros db (Hl & Hp & Hu). unfold createPayment.
  destruct (negb _); [done|].
  destruct (negb _); [done|]. destruct (decide _); [done|].
  destruct (Sql.references_null _ _); [|done].
  split; [done|]. split; [|done]. simpl. by apply prefix_app_r.
Qed.

Lemma createPhoneUnlock_extends newId now v :
  hoare (extends db0) (createPhoneUnlock newId now v) (λ _, extends db0) (extends db0).
Proof.
  intros db (Hl & Hp & Hu). unfold createPhoneUnlock.
  destruct (negb _); [done|].
  destruct (decide _); [done|]. destruct (Sql.references _ _); [|done].
  split; [done|]. split; [done|]. simpl. by apply prefix_app_r.
Qed.

Lemma post_listings_extends g files body :
  extends db0 (post_listings g files body db0).2.
Proof.
  unfold post_listings.
  apply (hoare_try_catch (extends db0) (extends db0)); [|apply extends_refl].
  destruct files as [[|f fs]|]; try (by apply hoare_mret).
  eapply hoare_bind; [apply hoare_parse|]. intros v. apply hoare_pure. intros _.
  eapply hoare_bind; [apply createListing_extends|]. intros listing.
  eapply hoare_bind; [apply createPayment_extends|]. intros payment.
  by apply hoare_mret.
Qed.

Lemma post_phone_unlock_extends g body :
  extends db0 (post_phone_unlock g body db0).2.
Proof.
  unfold post_phone_unlock.
  apply (hoare_try_catch (extends db0) (extends db0)); [|apply extends_refl].
  eapply hoare_bind; [apply hoare_parse|]. intros v. apply hoare_pure. intros _.
  eapply hoare_bind; [apply createPhoneUnlock_extends|]. intros unlock.
  eapply hoare_bind; [apply createPayment_extends|]. intros payment.
  by apply hoare_mret.
Qed.
End extends.

(** The routes that do not create write to the status columns only. *)
Lemma serve_rewrites (g : Fresh) (req : request) (db : Store) :
  (∀ parts body, req ≠ POST_listings parts body) →
  (∀ body, req ≠ POST_phone_unlock body) →
  ∃ (f : Listing.t → Listing.t) (h : Payment.t → Payment.t),
    (serve g req db).2 = mkStore (f <$> listings db) (h <$> payments db) (phoneUnlocks db)
    ∧ (∀ l, f l = Listing.set_status (Listing.status (f l))
                    (Listing.set_paymentStatus (Listing.paymentStatus (f l)) l)
            ∧ (Listing.paymentStatus (f l) = Listing.paymentStatus l
               ∨ (∃ id, req = POST_payment_confirm id)
                 ∧ Listing.paymentStatus (f l) = "confirmed"))
    ∧ (∀ p, h p = p
            ∨ req = POST_payment_confirm (Payment.id p)
              ∧ h p = Payment.set_status "confirmed" p).
Proof.
  intros Hnl Hnu.
  assert (Hid : ∀ db1 : Store,
            db1 = mkStore (id <$> listings db1) (id <$> payments db1) (phoneUnlocks db1)).
  { intros [ls ps us]. simpl. by rewrite !list_fmap_id. }
  assert (Hsame : ∀ l : Listing.t,
            l = Listing.set_status (Listing.status l)
                  (Listing.set_paymentStatus (Listing.paymentStatus l) l))
    by (by intros []).
  assert (Hmod : ∀ (P : Listing.t → Prop) `{∀ l, Decision (P l)} status l,
            let l' := if decide (P l) then Listing.set_status status l else l in
            l' = Listing.set_status (Listing.status l')
                   (Listing.set_paymentStatus (Listing.paymentStatus l') l)
            ∧ (Listing.paymentStatus l' = Listing.paymentStatus l
               ∨ (∃ id, req = POST_payment_confirm id)
                 ∧ Listing.paymentStatus l' = "confirmed")).
  { intros P ? status l. simpl. case_decide; (split; [by destruct l | by left]). }
  destruct req as [parts body| |lid0|ubody|pid| | |aid|rid|]; unfold serve.
  - by destruct (Hnl parts body).
  - exists id, id. split; [apply Hid|]. split; [|by left]. intros l. split; [apply Hsame | by left].
  - exists id, id. split.
    + unfold get_listing, try_catch, getListing, mbind, M_bind.
      destruct (Sql.text_ok lid0); [destruct (head _)|]; apply Hid.
    + split; [|by left]. intros l. split; [apply Hsame | by left].
  - by destruct (Hnu ubody).
  - exists (cascade pid (payments db)), (confirm pid).
    split; [apply post_payment_confirm_db|]. split.
    + intros l. destruct (cascade_cases pid (payments db))
        as [-> | (p & lid & _ & _ & _ & _ & _ & ->)].
      * split; [apply Hsame | by left].
      * case_decide; [|split; [apply Hsame | by left]].
        split; [by destruct l | right; split; [by exists pid | done]].
    + intros p. unfold confirm. case_decide as Hp; [|by left].
      right. destruct Hp as [Hp _]. by rewrite Hp.
  - exists id, id. split; [apply Hid|]. split; [|by left]. intros l. split; [apply Hsame | by left].
  - exists id, id. split; [apply Hid|]. split; [|by left]. intros l. split; [apply Hsame | by left].
  - exists (λ l, if decide (Listing.id l = aid ∧ Sql.text aid)
                 then Listing.set_status "approved" l else l), id.
    split; [|split; [intros l;
                     exact (Hmod (λ l, Listing.id l = aid ∧ Sql.text aid) _ "approved" l)
                    | by left]].
    by rewrite post_admin_approve_db, list_fmap_id.
  - exists (λ l, if decide (Listing.id l = rid ∧ Sql.text rid)
                 then Listing.set_status "rejected" l else l), id.
    split; [|split; [intros l;
                     exact (Hmod (λ l, Listing.id l = rid ∧ Sql.text rid) _ "rejected" l)
                    | by left]].
    by rewrite post_admin_reject_db, list_fmap_id.
  - exists (λ l, if decide (awaits_approval l) then Listing.set_status "approved" l else l), id.
    split; [|split; [intros l; exact (Hmod awaits_approval _ "approved" l) | by left]].
    unfold post_admin_approve_all, try_catch, mbind, M_bind, approveAllPendingListings,
      Sql.update.
    by rewrite list_fmap_id.
Qed.

(** X23. No route deletes or moves a row, and the only columns a route ever
    writes in a row that is there are the listing's [status] and
    [paymentStatus] and the payment's [status]. A listing's payment
    status changes only in the confirm route, to confirmed; a payment
    changes only when it is the one confirmed; a phone unlock never
    changes. *)
Theorem rows_immutable (g : Fresh) (req : request) (db : Store) :
  (∀ i l, listings db !! i = Some l →
     ∃ l', listings (serve g req db).2 !! i = Some l'
           ∧ l' = Listing.set_status (Listing.status l')
                    (Listing.set_paymentStatus (Listing.paymentStatus l') l)
           ∧ (Listing.paymentStatus l' = Listing.paymentStatus l
              ∨ (∃ id, req = POST_payment_confirm id)
                ∧ Listing.paymentStatus l' = "confirmed"))
  ∧ (∀ i p, payments db !! i = Some p →
       ∃ p', payments (serve g req db).2 !! i = Some p'
             ∧ (p' = p
                ∨ req = POST_payment_confirm (Payment.id p)
                  ∧ p' = Payment.set_status "confirmed" p))
  ∧ (∀ i u, phoneUnlocks db !! i = Some u →
       phoneUnlocks (serve g req db).2 !! i = Some u).
Proof.
  assert (Hext : extends db (serve g req db).2 →
    (∀ i l, listings db !! i = Some l →
       ∃ l', listings (serve g req db).2 !! i = Some l'
             ∧ l' = Listing.set_status (Listing.status l')
                      (Listing.set_paymentStatus (Listing.paymentStatus l') l)
             ∧ (Listing.paymentStatus l' = Listing.paymentStatus l
                ∨ (∃ id, req = POST_payment_confirm id)
                  ∧ Listing.paymentStatus l' = "confirmed"))
    ∧ (∀ i p, payments db !! i = Some p →
         ∃ p', payments (serve g req db).2 !! i = Some p'
               ∧ (p' = p
                  ∨ req = POST_payment_confirm (Payment.id p)
                    ∧ p' = Payment.set_status "confirmed" p))
    ∧ (∀ i u, phoneUnlocks db !! i = Some u →
         phoneUnlocks (serve g req db).2 !! i = Some u)).
  { intros (Hl & Hp & Hu). split; [|split].
    - intros i l Hi. exists l. split; [by eapply prefix_lookup_Some|].
      split; [by destruct l | by left].
    - intros i p Hi. exists p. split; [by eapply prefix_lookup_Some | by left].
    - intros i u Hi. by eapply prefix_lookup_Some. }
  assert (Hcase : (∃ parts body, req = POST_listings parts body)
                  ∨ (∃ body, req = POST_phone_unlock body)
                  ∨ ((∀ parts body, req ≠ POST_listings parts body)
                     ∧ (∀ body, req ≠ POST_phone_unlock body))).
  { destruct req; eauto; right; right; split; intros; discriminate. }
  destruct Hcase as [(parts & body & ->) | [(body & ->) | [Hc Hu]]].
  { apply Hext. unfold serve.
    destruct (Multer.array _ _ _); [apply post_listings_extends | apply extends_refl]. }
  { apply Hext. apply post_phone_unlock_extends. }
  destruct (serve_rewrites g req db Hc Hu) as (f & h & -> & Hf & Hh).
  simpl. split; [|split].
  - intros i l Hi. exists (f l). split; [by rewrite list_lookup_fmap, Hi|]. apply Hf.
  - intros i p Hi. exists (h p). split; [by rewrite list_lookup_fmap, Hi|]. apply Hh.
  - done.
Qed.

Lemma rows_immutable_witness :
  ∃ p', payments (serve Sample.fresh (POST_payment_confirm "payment-1") Sample.created).2
          !! 0%nat = Some p'
        ∧ (p' = Sample.payment "pending"
           ∨ POST_payment_confirm "payment-1"
             = POST_payment_confirm (Payment.id (Sample.payment "pending"))
             ∧ p' = Payment.set_status "confirmed" (Sample.payment "pending")).
Proof.
  apply (proj1 (proj2 (rows_immutable Sample.fresh (POST_payment_confirm "payment-1")
                         Sample.created)) 0%nat (Sample.payment "pending")).
  reflexivity.
Defined.
